(** * NiraCare: the response normalizer, the five agents and the pipeline

    A shallow embedding of [niracare_agents.py], [niracare_pipeline.py]
    and the loop of [run_interactive.py].

    - A Python [str] is a list of Unicode code points ([pystr]).
    - The values [json.loads] produces are the inductive type [json]; a
      Python [dict] is an association list in insertion order with unique
      keys.
    - [json.loads] is modelled by [json_loads], following CPython's C
      scanner.  Two interpreter limits are outside the model: the
      recursion limit and the limit on the number of digits of an integer
      literal.
    - [json.dumps] and the Gemini models are external: they are section
      variables ([json_dumps], [svc]).  A model is a function from the
      prompt to what [generate_content] does.
    - The pipeline runs in a monad of state and exceptions over the
      session object; a log of the calls of the agent functions is kept
      beside it.
    - The session's fields are not type checked by Python, so the
      operations of the pipeline on them ([.get], [len], iteration, use as
      a dictionary key) raise as Python does on a value of another kind.
    - Console output is not modelled; the exceptions that the printing
      code of the pipeline can raise are. *)

From Stdlib Require Import String Ascii.
From Stdlib Require Import List NArith ZArith Lia Bool.
Import ListNotations.

Set Implicit Arguments.
Set Warnings "-register-all".

(* ================================================================== *)
(** ** Python strings *)

Definition char := N.
Definition pystr := list char.

(** A string literal of the source, as code points. *)
Definition str (s : string) : pystr := map N_of_ascii (list_ascii_of_string s).

(** [str.isspace] on one code point: what [str.strip()] removes. *)
Definition isspace (c : char) : bool :=
  ((9 <=? c) && (c <=? 13) || (28 <=? c) && (c <=? 32)
   || (c =? 133) || (c =? 160) || (c =? 5760)
   || (8192 <=? c) && (c <=? 8202)
   || (c =? 8232) || (c =? 8233) || (c =? 8239) || (c =? 8287)
   || (c =? 12288))%N.

Fixpoint lstrip (s : pystr) : pystr :=
  match s with
  | c :: t => if isspace c then lstrip t else s
  | [] => []
  end.

Definition rstrip (s : pystr) : pystr := rev (lstrip (rev s)).

(** [s.strip()] *)
Definition strip (s : pystr) : pystr := rstrip (lstrip s).

(** [s.startswith(p)] *)
Fixpoint startswith (s p : pystr) {struct p} : bool :=
  match p, s with
  | [], _ => true
  | _ :: _, [] => false
  | a :: p', b :: s' => (a =? b)%N && startswith s' p'
  end.

(** [s.endswith(p)] *)
Definition endswith (s p : pystr) : bool := startswith (rev s) (rev p).

(** [s.find(c)] for a one-character needle: lowest index, or -1. *)
Fixpoint find (c : char) (s : pystr) : Z :=
  match s with
  | [] => -1
  | a :: t => if (a =? c)%N then 0
              else let r := find c t in if (r =? -1)%Z then -1 else (r + 1)%Z
  end.

(** [s.rfind(c)] for a one-character needle: highest index, or -1. *)
Definition rfind (c : char) (s : pystr) : Z :=
  let r := find c (rev s) in
  if (r =? -1)%Z then -1 else (Z.of_nat (length s) - 1 - r)%Z.

(** A slice bound, as Python clamps it: negative bounds count from the
    end. *)
Definition clamp (len : Z) (i : Z) : Z :=
  if (i <? 0)%Z then Z.max 0 (len + i) else Z.min i len.

(** [s[lo:hi]]; [None] is an omitted bound. *)
Definition slice (lo hi : option Z) (s : pystr) : pystr :=
  let len := Z.of_nat (length s) in
  let a := match lo with Some i => clamp len i | None => 0%Z end in
  let b := match hi with Some i => clamp len i | None => len end in
  firstn (Z.to_nat (b - a)) (skipn (Z.to_nat a) s).

Definition lbrace : char := 123%N.
Definition rbrace : char := 125%N.

(* ================================================================== *)
(** ** JSON values *)

(** A Python [float] as [json.loads] builds it: the decimal literal
    [(-1)^neg * digits * 10^exp10], which [float()] rounds to the nearest
    double, or one of the constants [NaN], [Infinity], [-Infinity]. *)
Inductive pyfloat :=
| FNaN
| FInf (neg : bool)
| FDec (neg : bool) (digits : N) (exp10 : Z).

Inductive json :=
| JNull
| JBool (b : bool)
| JInt (z : Z)
| JFloat (f : pyfloat)
| JStr (s : pystr)
| JList (l : list json)
| JDict (d : list (pystr * json)).

(** [a == b] on strings. *)
Fixpoint pystr_eqb (a b : pystr) : bool :=
  match a, b with
  | [], [] => true
  | x :: a', y :: b' => (x =? y)%N && pystr_eqb a' b'
  | _, _ => false
  end.

Section Dict.
Variable V : Type.

(** A [dict] with string keys. *)
Definition dict := list (pystr * V).

Fixpoint dict_get (k : pystr) (d : dict) : option V :=
  match d with
  | [] => None
  | (k', v) :: t => if pystr_eqb k k' then Some v else dict_get k t
  end.

(** [d[k] = v]: an existing key keeps its place. *)
Fixpoint dict_set (k : pystr) (v : V) (d : dict) : dict :=
  match d with
  | [] => [(k, v)]
  | (k', v') :: t =>
      if pystr_eqb k k' then (k', v) :: t else (k', v') :: dict_set k v t
  end.

Definition keys (d : dict) : list pystr := map fst d.
End Dict.

(** Exceptions.  The source raises [ValueError] with two texts, which the
    specification names [EmptyResponseError] and [FormatError]; the text of
    the decoder's own message, appended to the latter, is not modelled. *)
Inductive exn :=
| EmptyResponseError (agent : pystr)
    (* ValueError("No response received from <agent>") *)
| FormatError (preview : pystr)
    (* ValueError("Failed to parse JSON from agent response. Response was:
       <preview>... Error: ...") *)
| AttributeError
| TypeError
| ServiceError (code : N).
    (* whatever else [generate_content] raises *)

(** Whether the double nearest to [digits * 10^exp10] is zero: everything
    up to half the least subnormal, [2^-1075], rounds to zero. *)
Definition float_is_zero (f : pyfloat) : bool :=
  match f with
  | FNaN | FInf _ => false
  | FDec _ m e =>
      (m =? 0)%N
      || ((e <? 0)%Z && (Z.of_N m * 2 ^ 1075 <=? 10 ^ (- e))%Z)
  end.

(** [bool(v)] *)
Definition py_bool (v : json) : bool :=
  match v with
  | JNull => false
  | JBool b => b
  | JInt z => negb (z =? 0)%Z
  | JFloat f => negb (float_is_zero f)
  | JStr s => match s with [] => false | _ => true end
  | JList l => match l with [] => false | _ => true end
  | JDict d => match d with [] => false | _ => true end
  end.

(** [len(v)]: only the fact that it is defined matters to the pipeline. *)
Definition py_len (v : json) : exn + nat :=
  match v with
  | JStr s => inr (length s)
  | JList l => inr (length l)
  | JDict d => inr (length d)
  | _ => inl TypeError
  end.

(** The items a [for] loop over [v] visits. *)
Definition py_iter (v : json) : exn + list json :=
  match v with
  | JList l => inr l
  | JStr s => inr (map (fun c => JStr [c]) s)
  | JDict d => inr (map (fun kv => JStr (fst kv)) d)
  | _ => inl TypeError
  end.

(** [v.get(k, default)] *)
Definition py_get (v : json) (k : pystr) (default : json) : exn + json :=
  match v with
  | JDict d => inr (match dict_get k d with Some x => x | None => default end)
  | _ => inl AttributeError
  end.

(* ================================================================== *)
(** ** [json.loads] *)

(** The scanner's whitespace: space, tab, line feed, carriage return. *)
Definition json_ws (c : char) : bool :=
  ((c =? 32) || (c =? 9) || (c =? 10) || (c =? 13))%N.

Fixpoint skip_ws (s : pystr) : pystr :=
  match s with
  | c :: t => if json_ws c then skip_ws t else s
  | [] => []
  end.

Definition is_digit (c : char) : bool := ((48 <=? c) && (c <=? 57))%N.

(** The leading run of decimal digits and what follows it. *)
Fixpoint digits (s : pystr) : pystr * pystr :=
  match s with
  | c :: t => if is_digit c then let (ds, r) := digits t in (c :: ds, r)
              else ([], s)
  | [] => ([], [])
  end.

Definition decimal (ds : pystr) : N :=
  fold_left (fun a c => (10 * a + (c - 48))%N) ds 0%N.

Definition hex_val (c : char) : option N :=
  if is_digit c then Some (c - 48)%N
  else if ((97 <=? c) && (c <=? 102))%N then Some (c - 87)%N
  else if ((65 <=? c) && (c <=? 70))%N then Some (c - 55)%N
  else None.

(** The four hex digits of a [\uXXXX] escape. *)
Definition hex4 (s : pystr) : option (N * pystr) :=
  match s with
  | a :: b :: c :: d :: r =>
      match hex_val a, hex_val b, hex_val c, hex_val d with
      | Some x, Some y, Some z, Some w =>
          Some (((x * 16 + y) * 16 + z) * 16 + w, r)%N
      | _, _, _, _ => None
      end
  | _ => None
  end.

(** The character a one-letter escape stands for. *)
Definition escape (c : char) : option char :=
  if (c =? 34)%N then Some 34%N          (* quote *)
  else if (c =? 92)%N then Some 92%N     (* backslash *)
  else if (c =? 47)%N then Some 47%N     (* slash *)
  else if (c =? 98)%N then Some 8%N      (* b *)
  else if (c =? 102)%N then Some 12%N    (* f *)
  else if (c =? 110)%N then Some 10%N    (* n *)
  else if (c =? 114)%N then Some 13%N    (* r *)
  else if (c =? 116)%N then Some 9%N     (* t *)
  else None.

Definition high_surrogate (x : N) : bool := ((55296 <=? x) && (x <=? 56319))%N.
Definition low_surrogate (x : N) : bool := ((56320 <=? x) && (x <=? 57343))%N.

(** A string literal from just after its opening quote, in strict mode:
    the decoded text and the input after the closing quote.  [acc] is the
    text so far, reversed. *)
Fixpoint scanstring (fuel : nat) (s acc : pystr) : option (pystr * pystr) :=
  match fuel with
  | O => None
  | S fuel =>
      match s with
      | [] => None
      | c :: t =>
          if (c =? 34)%N then Some (rev acc, t)
          else if (c =? 92)%N then
            match t with
            | [] => None
            | e :: u =>
                if (e =? 117)%N then
                  match hex4 u with
                  | None => None
                  | Some (x, r) =>
                      if high_surrogate x && startswith r [92; 117]%N then
                        match hex4 (skipn 2 r) with
                        | None => None
                        | Some (y, r') =>
                            if low_surrogate y then
                              scanstring fuel r'
                                ((65536 + ((x - 55296) * 1024 + (y - 56320)))%N
                                 :: acc)
                            else scanstring fuel r (x :: acc)
                        end
                      else scanstring fuel r (x :: acc)
                  end
                else
                  match escape e with
                  | Some x => scanstring fuel u (x :: acc)
                  | None => None
                  end
            end
          else if (c <=? 31)%N then None
          else scanstring fuel t (c :: acc)
      end
  end.

(** A number literal: an optional minus sign; then a single 0, or a digit
    from 1 to 9 and any digits; then, optionally, a dot and at least one
    digit; then, optionally, e or E, an optional sign and at least one
    digit.  A fraction or an exponent that lacks its digits is left in the
    input.  Without fraction and exponent the literal is an [int],
    otherwise a [float]. *)
Definition match_number (s : pystr) : option (json * pystr) :=
  let (neg, s1) :=
    match s with
    | c :: t => if (c =? 45)%N then (true, t) else (false, s)
    | [] => (false, s)
    end in
  let int_part :=
    match s1 with
    | c :: t =>
        if (c =? 48)%N then Some ([c], t)
        else if is_digit c then let (ds, r) := digits t in Some (c :: ds, r)
        else None
    | [] => None
    end in
  match int_part with
  | None => None
  | Some (ip, r1) =>
      let (frac, r2) :=
        match r1 with
        | dot :: d :: t =>
            if (dot =? 46)%N && is_digit d
            then let (ds, r) := digits (d :: t) in (ds, r)
            else ([], r1)
        | _ => ([], r1)
        end in
      let (ex, r3) :=
        match r2 with
        | e :: t =>
            if ((e =? 101) || (e =? 69))%N then
              let (sg, t1) :=
                match t with
                | c :: u => if (c =? 45)%N then (true, u)
                            else if (c =? 43)%N then (false, u)
                            else (false, t)
                | [] => (false, t)
                end in
              let (ds, r) := digits t1 in
              match ds with
              | [] => (None, r2)
              | _ => (Some (if sg then (- Z.of_N (decimal ds))%Z
                            else Z.of_N (decimal ds)), r)
              end
            else (None, r2)
        | [] => (None, r2)
        end in
      match frac, ex with
      | [], None =>
          Some (JInt (if neg then (- Z.of_N (decimal ip))%Z
                      else Z.of_N (decimal ip)), r3)
      | _, _ =>
          Some (JFloat (FDec neg (decimal (ip ++ frac))
                          ((match ex with Some e => e | None => 0 end)
                           - Z.of_nat (length frac))%Z), r3)
      end
  end.

(** [scan_once]: one JSON value at the head of [s], and the rest of the
    input.  [parse_members] continues an object at a property name,
    [parse_elements] an array at an element. *)
Fixpoint scan_once (fuel : nat) (s : pystr) : option (json * pystr) :=
  match fuel with
  | O => None
  | S fuel =>
      match s with
      | [] => None
      | c :: t =>
          if (c =? 34)%N then
            match scanstring (S (length t)) t [] with
            | Some (x, r) => Some (JStr x, r)
            | None => None
            end
          else if (c =? lbrace)%N then
            match skip_ws t with
            | d :: r => if (d =? rbrace)%N then Some (JDict [], r)
                        else parse_members fuel (d :: r) []
            | [] => None
            end
          else if (c =? 91)%N then
            match skip_ws t with
            | d :: r => if (d =? 93)%N then Some (JList [], r)
                        else parse_elements fuel (d :: r) []
            | [] => None
            end
          else if startswith s (str "null") then Some (JNull, skipn 4 s)
          else if startswith s (str "true") then Some (JBool true, skipn 4 s)
          else if startswith s (str "false") then Some (JBool false, skipn 5 s)
          else if startswith s (str "NaN") then Some (JFloat FNaN, skipn 3 s)
          else if startswith s (str "Infinity")
               then Some (JFloat (FInf false), skipn 8 s)
          else if startswith s (str "-Infinity")
               then Some (JFloat (FInf true), skipn 9 s)
          else match_number s
      end
  end

with parse_members (fuel : nat) (s : pystr) (acc : dict json)
  : option (json * pystr) :=
  match fuel with
  | O => None
  | S fuel =>
      match s with
      | q :: t =>
          if (q =? 34)%N then
            match scanstring (S (length t)) t [] with
            | None => None
            | Some (key, r) =>
                match skip_ws r with
                | colon :: r1 =>
                    if (colon =? 58)%N then
                      match scan_once fuel (skip_ws r1) with
                      | None => None
                      | Some (v, r2) =>
                          match skip_ws r2 with
                          | e :: r3 =>
                              if (e =? rbrace)%N
                              then Some (JDict (dict_set key v acc), r3)
                              else if (e =? 44)%N
                              then parse_members fuel (skip_ws r3)
                                     (dict_set key v acc)
                              else None
                          | [] => None
                          end
                      end
                    else None
                | [] => None
                end
            end
          else None
      | [] => None
      end
  end

with parse_elements (fuel : nat) (s : pystr) (acc : list json)
  : option (json * pystr) :=
  match fuel with
  | O => None
  | S fuel =>
      match scan_once fuel s with
      | None => None
      | Some (v, r) =>
          match skip_ws r with
          | e :: r1 =>
              if (e =? 93)%N then Some (JList (acc ++ [v]), r1)
              else if (e =? 44)%N
              then parse_elements fuel (skip_ws r1) (acc ++ [v])
              else None
          | [] => None
          end
      end
  end.

(** [json.loads(s)]; [None] stands for [JSONDecodeError].  Of two nested
    calls of the scanner at least one consumes a character, so the fuel is
    never the reason for [None]. *)
Definition json_loads (s : pystr) : option json :=
  if startswith s [65279%N] then None
  else
    match scan_once (2 * length s + 2) (skip_ws s) with
    | Some (v, r) => match skip_ws r with [] => Some v | _ => None end
    | None => None
    end.

(* ================================================================== *)
(** ** niracare_agents.py *)

(** [_extract_json_from_response]: the Response Normalizer. *)
Definition _extract_json_from_response (response : pystr) : exn + json :=
  let response := strip response in
  (* Remove markdown code blocks if present *)
  let response :=
    if startswith response (str "```json") then slice (Some 7%Z) None response
    else if startswith response (str "```") then slice (Some 3%Z) None response
    else response in
  let response :=
    if endswith response (str "```") then slice None (Some (-3)%Z) response
    else response in
  let response := strip response in
  (* Try to find JSON object boundaries *)
  let start_idx := find lbrace response in
  let end_idx := rfind rbrace response in
  let response :=
    if negb (start_idx =? -1)%Z && negb (end_idx =? -1)%Z
       && (end_idx >? start_idx)%Z
    then slice (Some start_idx) (Some (end_idx + 1)%Z) response
    else response in
  match json_loads response with
  | Some v => inr v
  | None => inl (FormatError (slice None (Some 200%Z) response))
  end.

(** What [generate_content] does: it raises, or it returns a response
    whose [text] is a string or nothing. *)
Inductive reply :=
| Raises (e : exn)
| Response (text : option pystr).

(** The five Gemini models, each bound to its fixed instruction; a model
    is asked once in a run, so it is a function of the prompt. *)
Record ModelService := {
  _intake_model : pystr -> reply;
  _clarifier_model : pystr -> reply;
  _summary_model : pystr -> reply;
  _routing_model : pystr -> reply;
  _eval_model : pystr -> reply
}.

(** [response.text], or the empty string when it is [None] or empty. *)
Definition text_or_empty (text : option pystr) : pystr :=
  match text with
  | Some (c :: t) => c :: t
  | _ => []
  end.

Definition nl : pystr := [10%N].

(** [sep.join(l)] *)
Fixpoint join (sep : pystr) (l : list pystr) : pystr :=
  match l with
  | [] => []
  | [x] => x
  | x :: t => x ++ sep ++ join sep t
  end.

Section Agents.
(** [json.dumps(v, indent=2)] *)
Variable json_dumps : json -> pystr.
Variable svc : ModelService.

Definition run_intake_agent (raw_text : pystr) : exn + json :=
  match _intake_model svc raw_text with
  | Raises e => inl e
  | Response text =>
      match text_or_empty text with
      | [] => inl (EmptyResponseError (str "IntakeAgent"))
      | response_text => _extract_json_from_response response_text
      end
  end.

Definition clarifier_prompt (raw_text : pystr) (intake_json : json) : pystr :=
  str "Original user input:" ++ nl ++ raw_text ++ nl ++ nl
  ++ str "Structured symptoms extracted:" ++ nl
  ++ json_dumps intake_json ++ nl ++ nl
  ++ str "Based on the above, what follow-up questions would help clarify the symptoms?".

Definition run_clarifier_agent (raw_text : pystr) (intake_json : json)
  : exn + json :=
  match _clarifier_model svc (clarifier_prompt raw_text intake_json) with
  | Raises e => inl e
  | Response text =>
      match text_or_empty text with
      | [] => inl (EmptyResponseError (str "ClarifierAgent"))
      | response_text => _extract_json_from_response response_text
      end
  end.

Definition summary_prompt (raw_text : pystr) (intake_json : json)
    (clarifier_answers : dict pystr) : pystr :=
  let answers_text :=
    join nl (map (fun qa => str "Q: " ++ fst qa ++ nl ++ str "A: " ++ snd qa)
                 clarifier_answers) in
  str "Original user input:" ++ nl ++ raw_text ++ nl ++ nl
  ++ str "Structured symptoms:" ++ nl ++ json_dumps intake_json ++ nl ++ nl
  ++ str "Clarifying Q&A:" ++ nl ++ answers_text ++ nl ++ nl
  ++ str "Create a doctor-ready visit note based on the above information.".

Definition run_summary_agent (raw_text : pystr) (intake_json : json)
    (clarifier_answers : dict pystr) : exn + pystr :=
  match _summary_model svc
          (summary_prompt raw_text intake_json clarifier_answers) with
  | Raises e => inl e
  | Response text =>
      match text_or_empty text with
      | [] => inl (EmptyResponseError (str "SummaryAgent"))
      | response_text => inr (strip response_text)
      end
  end.

Definition routing_prompt (raw_text : pystr) (intake_json : json) : pystr :=
  str "Based on the following symptom information, suggest appropriate doctor types and general test categories."
  ++ nl ++ nl ++ str "User description:" ++ nl ++ raw_text ++ nl ++ nl
  ++ str "Structured symptoms:" ++ nl ++ json_dumps intake_json ++ nl ++ nl
  ++ str "Provide routing guidance in the specified JSON format.".

Definition run_routing_agent (raw_text : pystr) (intake_json : json)
  : exn + json :=
  match _routing_model svc (routing_prompt raw_text intake_json) with
  | Raises e => inl e
  | Response text =>
      match text_or_empty text with
      | [] => inl (EmptyResponseError (str "RoutingAgent"))
      | response_text => _extract_json_from_response response_text
      end
  end.

Definition eval_prompt (doctor_note : pystr) : pystr :=
  str "Evaluate the following visit note:" ++ nl ++ nl ++ doctor_note
  ++ nl ++ nl
  ++ str "Provide your evaluation in the specified JSON format.".

Definition run_eval_agent (doctor_note : pystr) : exn + json :=
  match _eval_model svc (eval_prompt doctor_note) with
  | Raises e => inl e
  | Response text =>
      match text_or_empty text with
      | [] => inl (EmptyResponseError (str "EvalAgent"))
      | response_text => _extract_json_from_response response_text
      end
  end.
End Agents.

(* ================================================================== *)
(** ** niracare_pipeline.py *)

(** The dataclass [NiraSession].  Its annotations are not enforced: the
    fields filled from a model's reply hold whatever JSON value the
    normalizer returned. *)
Record NiraSession := {
  raw_text : pystr;
  intake_json : json;
  clarifier_questions : json;
  clarifier_answers : dict pystr;
  doctor_note : pystr;
  routing_guidance : json;
  eval_result : json
}.

(** [NiraSession(raw_text=raw_text)] *)
Definition new_session (raw : pystr) : NiraSession :=
  {| raw_text := raw; intake_json := JDict []; clarifier_questions := JList [];
     clarifier_answers := []; doctor_note := []; routing_guidance := JDict [];
     eval_result := JDict [] |}.

Definition with_intake_json (v : json) (s : NiraSession) : NiraSession :=
  {| raw_text := raw_text s; intake_json := v;
     clarifier_questions := clarifier_questions s;
     clarifier_answers := clarifier_answers s; doctor_note := doctor_note s;
     routing_guidance := routing_guidance s; eval_result := eval_result s |}.

Definition with_clarifier_questions (v : json) (s : NiraSession) : NiraSession :=
  {| raw_text := raw_text s; intake_json := intake_json s;
     clarifier_questions := v;
     clarifier_answers := clarifier_answers s; doctor_note := doctor_note s;
     routing_guidance := routing_guidance s; eval_result := eval_result s |}.

Definition with_clarifier_answers (v : dict pystr) (s : NiraSession)
  : NiraSession :=
  {| raw_text := raw_text s; intake_json := intake_json s;
     clarifier_questions := clarifier_questions s;
     clarifier_answers := v; doctor_note := doctor_note s;
     routing_guidance := routing_guidance s; eval_result := eval_result s |}.

Definition with_doctor_note (v : pystr) (s : NiraSession) : NiraSession :=
  {| raw_text := raw_text s; intake_json := intake_json s;
     clarifier_questions := clarifier_questions s;
     clarifier_answers := clarifier_answers s; doctor_note := v;
     routing_guidance := routing_guidance s; eval_result := eval_result s |}.

Definition with_routing_guidance (v : json) (s : NiraSession) : NiraSession :=
  {| raw_text := raw_text s; intake_json := intake_json s;
     clarifier_questions := clarifier_questions s;
     clarifier_answers := clarifier_answers s; doctor_note := doctor_note s;
     routing_guidance := v; eval_result := eval_result s |}.

Definition with_eval_result (v : json) (s : NiraSession) : NiraSession :=
  {| raw_text := raw_text s; intake_json := intake_json s;
     clarifier_questions := clarifier_questions s;
     clarifier_answers := clarifier_answers s; doctor_note := doctor_note s;
     routing_guidance := routing_guidance s; eval_result := v |}.

(** [auto_answer_clarifier_questions], on its declared domain
    [List[str]]. *)
Definition auto_answer_clarifier_questions (questions : list pystr)
  : dict pystr :=
  fold_left
    (fun answers question =>
       dict_set question (str "Demo answer for: " ++ question) answers)
    questions [].

(** A call of an agent function, with its arguments: the log of these is
    ghost state, by which the order of the calls can be stated. *)
Inductive call :=
| CallIntake (raw : pystr)
| CallClarifier (raw : pystr) (intake : json)
| CallSummary (raw : pystr) (intake : json) (answers : dict pystr)
| CallRouting (raw : pystr) (intake : json)
| CallEval (note : pystr).

(** The state of a run: the session object and the log of agent calls. *)
Record state := { session : NiraSession; calls : list call }.

(** How a computation ends.  [Unmodelled] marks the one situation the
    embedding does not follow (see [question_strings]). *)
Inductive result (A : Type) :=
| Ok (a : A)
| Raise (e : exn)
| Unmodelled.
Arguments Ok {A} a.
Arguments Raise {A} e.
Arguments Unmodelled {A}.

(** State and exceptions: an exception leaves the assignments made so far
    in place. *)
Definition M (A : Type) := state -> result A * state.

Definition ret {A} (a : A) : M A := fun st => (Ok a, st).

Definition bind {A B} (m : M A) (k : A -> M B) : M B :=
  fun st =>
    match m st with
    | (Ok a, st') => k a st'
    | (Raise e, st') => (Raise e, st')
    | (Unmodelled, st') => (Unmodelled, st')
    end.

Definition raise {A} (e : exn) : M A := fun st => (Raise e, st).

(** [try: body except Exception as e: handler] *)
Definition try_except {A} (body : M A) (handler : exn -> M A) : M A :=
  fun st =>
    match body st with
    | (Raise e, st') => handler e st'
    | r => r
    end.

Definition get_session : M NiraSession := fun st => (Ok (session st), st).

Definition assign (f : NiraSession -> NiraSession) : M unit :=
  fun st => (Ok tt, {| session := f (session st); calls := calls st |}).

(** A computation that does not touch the state. *)
Definition finish {A} (r : result A) : M A := fun st => (r, st).

(** An expression that may raise. *)
Definition lift {A} (r : exn + A) : M A :=
  fun st =>
    match r with
    | inr a => (Ok a, st)
    | inl e => (Raise e, st)
    end.

(** A call of an agent function: logged, then its outcome. *)
Definition invoke {A} (c : call) (r : exn + A) : M A :=
  fun st =>
    lift r {| session := session st; calls := calls st ++ [c] |}.

Declare Scope pipeline_scope.
Delimit Scope pipeline_scope with pipeline.
Notation "x <- m ;; k" := (bind m (fun x => k))
  (at level 61, m at next level, right associativity) : pipeline_scope.
Notation "m ;; k" := (bind m (fun _ => k))
  (at level 61, right associativity) : pipeline_scope.

(** Sequencing of expressions that may raise. *)
Definition and_then {A B} (r : exn + A) (k : A -> exn + B) : exn + B :=
  match r with
  | inr a => k a
  | inl e => inl e
  end.

(** A [for] loop whose body may raise. *)
Fixpoint for_each {A} (l : list A) (body : A -> exn + unit) : exn + unit :=
  match l with
  | [] => inr tt
  | x :: t => and_then (body x) (fun _ => for_each t body)
  end.

(** The printing of one list of recommendations in step 5:
    [if items: for i, x in enumerate(items, 1): x.get(name, 'Unknown');
    x.get(detail)]. *)
Definition print_entries (items : json) (name detail : pystr) : exn + unit :=
  if py_bool items then
    and_then (py_iter items) (fun l =>
      for_each l (fun x =>
        and_then (py_get x name (JStr (str "Unknown"))) (fun _ =>
        and_then (py_get x detail JNull) (fun _ => inr tt))))
  else inr tt.

(** The printing of the routing guidance in step 5. *)
Definition print_routing (guidance : json) : exn + unit :=
  and_then (py_get guidance (str "recommended_doctors") (JList []))
    (fun doctors =>
  and_then (print_entries doctors (str "type") (str "reason")) (fun _ =>
  and_then (py_get guidance (str "possible_test_categories") (JList []))
    (fun tests =>
  and_then (print_entries tests (str "category") (str "purpose")) (fun _ =>
  and_then (py_get guidance (str "urgency_note") (JStr [])) (fun _ =>
  inr tt))))).

Definition unhashable (v : json) : bool :=
  match v with
  | JList _ | JDict _ => true
  | _ => false
  end.

Fixpoint all_strings (l : list json) : option (list pystr) :=
  match l with
  | [] => Some []
  | JStr s :: t =>
      match all_strings t with
      | Some r => Some (s :: r)
      | None => None
      end
  | _ :: _ => None
  end.

(** The questions that the loop of [auto_answer_clarifier_questions]
    visits, when it is handed the value stored in [clarifier_questions].
    A value that cannot be iterated, or an item that cannot be a dictionary
    key, raises [TypeError].  Items that are numbers, booleans or [None]
    would become keys that are not strings: those runs are [Unmodelled]. *)
Definition question_strings (questions : json) : result (list pystr) :=
  match py_iter questions with
  | inl e => Raise e
  | inr items =>
      if existsb unhashable items then Raise TypeError
      else match all_strings items with
           | Some l => Ok l
           | None => Unmodelled
           end
  end.

Section Pipeline.
Variable json_dumps : json -> pystr.
Variable svc : ModelService.

Local Open Scope pipeline_scope.

(** Step 1: IntakeAgent. *)
Definition step_intake (raw_text : pystr) : M unit :=
  try_except
    (v <- invoke (CallIntake raw_text) (run_intake_agent svc raw_text) ;;
     assign (with_intake_json v))
    (fun e => raise e).

(** Step 2: ClarifierAgent; the questions are printed when the value is
    truthy. *)
Definition step_clarifier (raw_text : pystr) : M unit :=
  try_except
    (s <- get_session ;;
     clarifier_output <-
       invoke (CallClarifier raw_text (intake_json s))
         (run_clarifier_agent json_dumps svc raw_text (intake_json s)) ;;
     questions <- lift (py_get clarifier_output (str "questions") (JList [])) ;;
     assign (with_clarifier_questions questions) ;;
     s <- get_session ;;
     if py_bool (clarifier_questions s)
     then (_ <- lift (py_iter (clarifier_questions s)) ;; ret tt)
     else ret tt)
    (fun e => raise e).

(** Step 3: the auto answers. *)
Definition step_auto_answers : M unit :=
  s <- get_session ;;
  questions <- finish (question_strings (clarifier_questions s)) ;;
  assign (with_clarifier_answers (auto_answer_clarifier_questions questions)).

(** Step 4: SummaryAgent. *)
Definition step_summary (raw_text : pystr) : M unit :=
  try_except
    (s <- get_session ;;
     note <-
       invoke (CallSummary raw_text (intake_json s) (clarifier_answers s))
         (run_summary_agent json_dumps svc raw_text (intake_json s)
            (clarifier_answers s)) ;;
     assign (with_doctor_note note))
    (fun e => raise e).

(** Step 5: RoutingAgent.  Any exception of the block, from the call or
    from the printing, is absorbed. *)
Definition step_routing (raw_text : pystr) : M unit :=
  try_except
    (s <- get_session ;;
     guidance <-
       invoke (CallRouting raw_text (intake_json s))
         (run_routing_agent json_dumps svc raw_text (intake_json s)) ;;
     assign (with_routing_guidance guidance) ;;
     s <- get_session ;;
     lift (print_routing (routing_guidance s)))
    (fun e =>
       (* Don't raise - routing is optional *)
       assign (with_routing_guidance (JDict []))).

(** Step 6: EvalAgent. *)
Definition step_eval : M unit :=
  try_except
    (s <- get_session ;;
     v <- invoke (CallEval (doctor_note s)) (run_eval_agent svc (doctor_note s)) ;;
     assign (with_eval_result v))
    (fun e => raise e).

(** The closing summary: four counts are printed. *)
Definition print_summary : M unit :=
  s <- get_session ;;
  symptoms <- lift (py_get (intake_json s) (str "symptoms") (JList [])) ;;
  _ <- lift (py_len symptoms) ;;
  _ <- lift (py_len (clarifier_questions s)) ;;
  doctors <-
    lift (py_get (routing_guidance s) (str "recommended_doctors") (JList [])) ;;
  _ <- lift (py_len doctors) ;;
  _ <- lift (py_get (eval_result s) (str "score") (JStr (str "N/A"))) ;;
  ret tt.

(** [run_niracare_demo]: how the call ends (the session returned, or
    the exception raised) and the final state. *)
Definition run_niracare_demo (raw_text : pystr) : result NiraSession * state :=
  (step_intake raw_text ;;
   step_clarifier raw_text ;;
   step_auto_answers ;;
   step_summary raw_text ;;
   step_routing raw_text ;;
   step_eval ;;
   print_summary ;;
   get_session)
    {| session := new_session raw_text; calls := [] |}.

(** [run_niracare_with_user_answers] *)
Definition run_niracare_with_user_answers (raw_text : pystr)
    (user_answers : dict pystr) : result NiraSession * state :=
  ((* Run IntakeAgent *)
   v <- invoke (CallIntake raw_text) (run_intake_agent svc raw_text) ;;
   assign (with_intake_json v) ;;
   (* Run ClarifierAgent *)
   s <- get_session ;;
   clarifier_output <-
     invoke (CallClarifier raw_text (intake_json s))
       (run_clarifier_agent json_dumps svc raw_text (intake_json s)) ;;
   questions <- lift (py_get clarifier_output (str "questions") (JList [])) ;;
   assign (with_clarifier_questions questions) ;;
   (* Use user-provided answers *)
   assign (with_clarifier_answers user_answers) ;;
   (* Run SummaryAgent *)
   s <- get_session ;;
   note <-
     invoke (CallSummary raw_text (intake_json s) (clarifier_answers s))
       (run_summary_agent json_dumps svc raw_text (intake_json s)
          (clarifier_answers s)) ;;
   assign (with_doctor_note note) ;;
   (* Run EvalAgent *)
   s <- get_session ;;
   v <- invoke (CallEval (doctor_note s)) (run_eval_agent svc (doctor_note s)) ;;
   assign (with_eval_result v) ;;
   get_session)
    {| session := new_session raw_text; calls := [] |}.
End Pipeline.

(* ================================================================== *)
(** ** Notions used to state the properties *)

(** The normalizer in stages: the removal of the code fence, the cut from
    the first opening to the last closing brace, and the decoding. *)
Definition unfence (response : pystr) : pystr :=
  let response :=
    if startswith response (str "```json") then slice (Some 7%Z) None response
    else if startswith response (str "```") then slice (Some 3%Z) None response
    else response in
  if endswith response (str "```") then slice None (Some (-3)%Z) response
  else response.

Definition json_span (response : pystr) : pystr :=
  let start_idx := find lbrace response in
  let end_idx := rfind rbrace response in
  if negb (start_idx =? -1)%Z && negb (end_idx =? -1)%Z
     && (end_idx >? start_idx)%Z
  then slice (Some start_idx) (Some (end_idx + 1)%Z) response
  else response.

Definition decode (response : pystr) : exn + json :=
  match json_loads response with
  | Some v => inr v
  | None => inl (FormatError (slice None (Some 200%Z) response))
  end.

(** [r] holds the span [{m}] between a text without opening brace and a
    text without closing brace: the span from the first [{] to the last
    [}] of [r] is [{m}]. *)
Definition framed (m r : pystr) : Prop :=
  exists a b, r = a ++ lbrace :: m ++ rbrace :: b
              /\ ~ In lbrace a /\ ~ In rbrace b.

(** [r] is what is left of [s] after a prefix. *)
Definition suffix (r s : pystr) : Prop := exists p, s = p ++ r.

(** What follows a value, a member list or an element list is a suffix of
    the input after its first character. *)
Definition consumes (s r : pystr) : Prop :=
  exists c t, s = c :: t /\ suffix r t.


(** A model returned no text at all. *)
Definition no_text (r : reply) : Prop :=
  r = Response None \/ r = Response (Some []).

(** The value is a JSON object (a [dict]). *)
Definition is_object (v : json) : Prop := exists d, v = JDict d.

(** The routing field once step 5 of [run_niracare_demo] is over: the
    result of the RoutingAgent when the call and the printing went
    through, the empty dictionary otherwise. *)
Definition routing_outcome (json_dumps : json -> pystr) (svc : ModelService)
    (raw : pystr) (intake : json) : json :=
  match run_routing_agent json_dumps svc raw intake with
  | inr g => match print_routing g with inr _ => g | inl _ => JDict [] end
  | inl _ => JDict []
  end.

(** A literal in which the apostrophe stands for the double quote. *)
Definition py (s : string) : pystr :=
  map (fun c => if (c =? 39)%N then 34%N else c) (str s).

(** Services whose replies do not depend on the prompt, for the concrete
    runs below; in such runs the rendering of the prompt plays no part,
    and [no_dumps] stands for [json.dumps]. *)
Definition fixed_service (intake clarifier summary routing eval : reply)
  : ModelService :=
  {| _intake_model := fun _ => intake;
     _clarifier_model := fun _ => clarifier;
     _summary_model := fun _ => summary;
     _routing_model := fun _ => routing;
     _eval_model := fun _ => eval |}.

Definition says (s : string) : reply := Response (Some (py s)).

Definition no_dumps : json -> pystr := fun _ => [].

(** The answer [auto_answer_clarifier_questions] gives to a question. *)
Definition demo_answer (question : pystr) : pystr :=
  str "Demo answer for: " ++ question.


(** *** Concrete services and inputs *)

Definition headache : pystr := str "I have had headaches for two weeks.".

(** Every model answers in the contracted shape, and the routing model
    fails. *)
Definition service_without_routing : ModelService :=
  fixed_service (says "{'symptoms': []}")
                (says "{'questions': ['Since when?']}")
                (says "CHIEF COMPLAINT: headaches")
                (Raises (ServiceError 503))
                (says "{'score': 7}").


(** Every model answers in the contracted shape. *)
Definition service_all_fine : ModelService :=
  fixed_service (says "{'symptoms': []}")
                (says "{'questions': ['Since when?']}")
                (says "CHIEF COMPLAINT: headaches")
                (says "{'recommended_doctors': [{'type': 'Neurologist'}]}")
                (says "{'score': 7}").



(** The clarifier answers with an object that has no [questions]. *)
Definition service_no_questions_key : ModelService :=
  fixed_service (says "{'symptoms': []}")
                (says "{'note': 'nothing to ask'}")
                (says "CHIEF COMPLAINT: headaches")
                (says "{}")
                (says "{'score': 7}").

(* ================================================================== *)
(** ** [NiraSession.to_dict] *)


(* ================================================================== *)
(** ** run_interactive.py *)

(** The interactive script reads the console with [input()], calls the
    five agents itself and keeps their results in local variables.  Its
    start (the imports, the check of the API key, the banner) is not
    modelled: the embedding begins at the [while True] loop. *)

(** What [except Exception] catches in the script: an exception of an
    agent or of an operation on its result, or the [EOFError] that
    [input()] raises when the console has no line left. *)
Inductive shell_exn :=
| PyError (e : exn)
| EOFError.

(** How a computation of the script ends: with a value, with an exception,
    with the [SystemExit] of [exit(code)], which [except Exception] does
    not catch, or where the embedding does not follow (a question that is
    a number, a boolean or [None], see [question_strings]).  [OutOfFuel]
    is the end of the fuel that bounds the outer loop. *)
Inductive ending (A : Type) :=
| Returns (a : A)
| Throws (e : shell_exn)
| Exits (code : Z)
| NotModelled
| OutOfFuel.
Arguments Returns {A} a.
Arguments Throws {A} e.
Arguments Exits {A} code.
Arguments NotModelled {A}.
Arguments OutOfFuel {A}.

(** The lines the console still holds, each without its line end, and the
    log of the agent calls. *)
Record world := { stdin : list pystr; agent_calls : list call }.

Definition Sh (A : Type) := world -> ending A * world.

Definition sh_ret {A} (a : A) : Sh A := fun w => (Returns a, w).

Definition sh_bind {A B} (m : Sh A) (k : A -> Sh B) : Sh B :=
  fun w =>
    match m w with
    | (Returns a, w') => k a w'
    | (Throws e, w') => (Throws e, w')
    | (Exits code, w') => (Exits code, w')
    | (NotModelled, w') => (NotModelled, w')
    | (OutOfFuel, w') => (OutOfFuel, w')
    end.

Declare Scope shell_scope.
Delimit Scope shell_scope with shell.
Notation "x <- m ;; k" := (sh_bind m (fun x => k))
  (at level 61, m at next level, right associativity) : shell_scope.
Notation "m ;; k" := (sh_bind m (fun _ => k))
  (at level 61, right associativity) : shell_scope.

(** [input()] *)
Definition input : Sh pystr :=
  fun w =>
    match stdin w with
    | [] => (Throws EOFError, w)
    | line :: rest =>
        (Returns line, {| stdin := rest; agent_calls := agent_calls w |})
    end.

(** An expression that may raise. *)
Definition sh_expr {A} (r : exn + A) : Sh A :=
  fun w =>
    match r with
    | inr a => (Returns a, w)
    | inl e => (Throws (PyError e), w)
    end.

(** A call of an agent function: logged, then its outcome. *)
Definition sh_call {A} (c : call) (r : exn + A) : Sh A :=
  fun w =>
    sh_expr r {| stdin := stdin w; agent_calls := agent_calls w ++ [c] |}.

(** [try: body except Exception as e: handler] *)
Definition sh_try {A} (body : Sh A) (handler : shell_exn -> Sh A) : Sh A :=
  fun w =>
    match body w with
    | (Throws e, w') => handler e w'
    | r => r
    end.

(** [c.lower()] on the letters of the words the script compares with. *)
Definition ascii_lower (c : char) : char :=
  if ((65 <=? c) && (c <=? 90))%N then (c + 32)%N else c.

(** [s.lower() == word], for the words [quit] and [y]: the only
    characters whose lower case consists of letters of these words are
    the ASCII letters themselves, in either case. *)
Definition lower_is (s word : pystr) : bool :=
  pystr_eqb (map ascii_lower s) word.

(** The inner [while True] loop: the lines of the symptom description,
    up to the first blank line; the word [quit] ends the script with
    [exit(0)]. *)
Fixpoint read_lines (pending lines : list pystr)
  : ending (list pystr) * list pystr :=
  match pending with
  | [] => (Throws EOFError, [])
  | line :: rest =>
      if lower_is (strip line) (str "quit") then (Exits 0%Z, rest)
      else match strip line with
           | [] => (Returns lines, rest)
           | _ => read_lines rest (lines ++ [line])
           end
  end.

Definition read_symptoms : Sh (list pystr) :=
  fun w =>
    let (r, rest) := read_lines (stdin w) [] in
    (r, {| stdin := rest; agent_calls := agent_calls w |}).

(** A question as the key of [clarifier_answers]. *)
Definition as_key (question : json) : Sh pystr :=
  fun w =>
    if unhashable question then (Throws (PyError TypeError), w)
    else match question with
         | JStr q => (Returns q, w)
         | _ => (NotModelled, w)
         end.

(** What is stored for a line typed as an answer. *)
Definition answer_text (line : pystr) : pystr :=
  match strip line with
  | [] => str "(No answer provided)"
  | answer => answer
  end.

Section Shell.
Variable json_dumps : json -> pystr.
Variable svc : ModelService.

Local Open Scope shell_scope.

(** Step 3: the loop over the questions. *)
Fixpoint ask_questions (items : list json) (clarifier_answers : dict pystr)
  : Sh (dict pystr) :=
  match items with
  | [] => sh_ret clarifier_answers
  | question :: rest =>
      line <- input ;;
      key <- as_key question ;;
      ask_questions rest (dict_set key (answer_text line) clarifier_answers)
  end.

(** The body of the [try] block, up to the closing summary. *)
Definition round (symptom_text : pystr) : Sh unit :=
  (* Step 1: IntakeAgent *)
  intake_json <-
    sh_call (CallIntake symptom_text) (run_intake_agent svc symptom_text) ;;
  symptoms <- sh_expr (py_get intake_json (str "symptoms") (JList [])) ;;
  _ <- sh_expr (py_len symptoms) ;;
  (* Step 2: ClarifierAgent *)
  clarifier_output <-
    sh_call (CallClarifier symptom_text intake_json)
      (run_clarifier_agent json_dumps svc symptom_text intake_json) ;;
  clarifier_questions <-
    sh_expr (py_get clarifier_output (str "questions") (JList [])) ;;
  clarifier_answers <-
    (if negb (py_bool clarifier_questions) then sh_ret []
     else
       _ <- sh_expr (py_len clarifier_questions) ;;
       (* Step 3: Get user answers *)
       items <- sh_expr (py_iter clarifier_questions) ;;
       ask_questions items []) ;;
  (* Step 4: SummaryAgent *)
  doctor_note <-
    sh_call (CallSummary symptom_text intake_json clarifier_answers)
      (run_summary_agent json_dumps svc symptom_text intake_json
         clarifier_answers) ;;
  (* Step 5: RoutingAgent *)
  routing_guidance <-
    sh_call (CallRouting symptom_text intake_json)
      (run_routing_agent json_dumps svc symptom_text intake_json) ;;
  doctors <-
    sh_expr (py_get routing_guidance (str "recommended_doctors") (JList [])) ;;
  _ <- sh_expr (print_entries doctors (str "type") (str "reason")) ;;
  tests <-
    sh_expr (py_get routing_guidance (str "possible_test_categories")
               (JList [])) ;;
  _ <- sh_expr (print_entries tests (str "category") (str "purpose")) ;;
  _ <- sh_expr (py_get routing_guidance (str "urgency_note") (JStr [])) ;;
  (* Step 6: EvalAgent *)
  eval_result <-
    sh_call (CallEval doctor_note) (run_eval_agent svc doctor_note) ;;
  _ <- sh_expr (py_get eval_result (str "score") (JStr (str "N/A"))) ;;
  missing_fields <-
    sh_expr (py_get eval_result (str "missing_fields") (JList [])) ;;
  _ <- (if py_bool missing_fields
        then (_ <- sh_expr (py_iter missing_fields) ;; sh_ret tt)
        else sh_ret tt) ;;
  _ <- sh_expr (py_get eval_result (str "suggested_improvement") (JStr [])) ;;
  (* Final Summary *)
  symptoms <- sh_expr (py_get intake_json (str "symptoms") (JList [])) ;;
  _ <- sh_expr (py_len symptoms) ;;
  _ <- sh_expr (py_len doctors) ;;
  _ <- sh_expr (py_get eval_result (str "score") (JStr (str "N/A"))) ;;
  sh_ret tt.

(** [choice = input().strip().lower()], and whether it is [y]. *)
Definition ask_again : Sh bool :=
  choice <- input ;;
  sh_ret (lower_is (strip choice) (str "y")).

(** The [try] statement of the outer loop: whether the loop goes on. *)
Definition attempt (symptom_text : pystr) : Sh bool :=
  sh_try (round symptom_text ;; ask_again) (fun e => ask_again).

(** The outer [while True] loop. *)
Fixpoint main_loop (fuel : nat) : Sh unit :=
  match fuel with
  | O => fun w => (OutOfFuel, w)
  | S fuel =>
      lines <- read_symptoms ;;
      match lines with
      | [] => main_loop fuel
      | _ =>
          again <- attempt (join nl lines) ;;
          if again then main_loop fuel else sh_ret tt
      end
  end.

(** The script on a console that holds the given lines.  Every turn of
    the outer loop reads a line, so this fuel is never used up. *)
Definition run_interactive (lines : list pystr) : ending unit * world :=
  main_loop (S (length lines)) {| stdin := lines; agent_calls := [] |}.
End Shell.

(* ================================================================== *)
(** ** Further notions used to state the properties *)

(** [p] is a piece of [s]: it occurs in [s] as it stands. *)
Definition part (p s : pystr) : Prop := exists a b, s = a ++ p ++ b.

(** A model returned a text of whitespace only. *)
Definition blank (r : reply) : Prop :=
  exists c w, r = Response (Some (c :: w)) /\ forallb isspace (c :: w) = true.

(** What the closing summary of [run_niracare_demo] reads from the
    session. *)
Definition summary_readable (s : NiraSession) : Prop :=
  (exists symptoms n,
      py_get (intake_json s) (str "symptoms") (JList []) = inr symptoms
      /\ py_len symptoms = inr n)
  /\ (exists n, py_len (clarifier_questions s) = inr n)
  /\ (exists doctors n,
         py_get (routing_guidance s) (str "recommended_doctors") (JList [])
         = inr doctors
         /\ py_len doctors = inr n)
  /\ is_object (eval_result s).

(** The session is the chain of the agents' results that
    [run_niracare_demo] builds: each agent is given the fields before
    it. *)
Definition demo_chain (json_dumps : json -> pystr) (svc : ModelService)
    (raw : pystr) (s : NiraSession) : Prop :=
  raw_text s = raw
  /\ run_intake_agent svc raw = inr (intake_json s)
  /\ (exists out,
         run_clarifier_agent json_dumps svc raw (intake_json s) = inr out
         /\ py_get out (str "questions") (JList [])
            = inr (clarifier_questions s))
  /\ (exists l,
         question_strings (clarifier_questions s) = Ok l
         /\ clarifier_answers s = auto_answer_clarifier_questions l)
  /\ run_summary_agent json_dumps svc raw (intake_json s)
       (clarifier_answers s) = inr (doctor_note s)
  /\ routing_guidance s = routing_outcome json_dumps svc raw (intake_json s)
  /\ run_eval_agent svc (doctor_note s) = inr (eval_result s).

(** The five calls of a run of [run_niracare_demo] that ends with the
    session [s]. *)
Definition demo_calls (raw : pystr) (s : NiraSession) : list call :=
  [CallIntake raw; CallClarifier raw (intake_json s);
   CallSummary raw (intake_json s) (clarifier_answers s);
   CallRouting raw (intake_json s); CallEval (doctor_note s)].

(** The session is the chain of the agents' results that
    [run_niracare_with_user_answers] builds. *)
Definition user_chain (json_dumps : json -> pystr) (svc : ModelService)
    (raw : pystr) (user_answers : dict pystr) (s : NiraSession) : Prop :=
  raw_text s = raw
  /\ run_intake_agent svc raw = inr (intake_json s)
  /\ (exists out,
         run_clarifier_agent json_dumps svc raw (intake_json s) = inr out
         /\ py_get out (str "questions") (JList [])
            = inr (clarifier_questions s))
  /\ clarifier_answers s = user_answers
  /\ run_summary_agent json_dumps svc raw (intake_json s) user_answers
     = inr (doctor_note s)
  /\ routing_guidance s = JDict []
  /\ run_eval_agent svc (doctor_note s) = inr (eval_result s).

(** The four calls of a run of [run_niracare_with_user_answers] that ends
    with the session [s]. *)
Definition user_calls (raw : pystr) (s : NiraSession) : list call :=
  [CallIntake raw; CallClarifier raw (intake_json s);
   CallSummary raw (intake_json s) (clarifier_answers s);
   CallEval (doctor_note s)].

(** A computation of the script reads lines and adds calls, and does
    nothing else to the console and the log. *)
Definition grows {A} (m : Sh A) : Prop :=
  forall w,
    length (stdin (snd (m w))) <= length (stdin w)
    /\ exists more, agent_calls (snd (m w)) = agent_calls w ++ more.

(** A computation of the script that neither exits nor runs out of
    fuel. *)
Definition stays {A} (m : Sh A) : Prop :=
  forall w, (forall code, fst (m w) <> Exits code) /\ fst (m w) <> OutOfFuel.

(** A line that the symptom loop keeps: neither blank nor the word
    [quit]. *)
Definition symptom_line (line : pystr) : Prop :=
  lower_is (strip line) (str "quit") = false /\ strip line <> [].

Definition is_eval (c : call) : bool :=
  match c with CallEval _ => true | _ => false end.

(** *** More concrete services and inputs *)

(** The session of the run in which every model answers in the contracted
    shape. *)
Definition session_all_fine : NiraSession :=
  {| raw_text := headache;
     intake_json := JDict [(str "symptoms", JList [])];
     clarifier_questions := JList [JStr (str "Since when?")];
     clarifier_answers :=
       [(str "Since when?", str "Demo answer for: Since when?")];
     doctor_note := str "CHIEF COMPLAINT: headaches";
     routing_guidance :=
       JDict [(str "recommended_doctors",
               JList [JDict [(str "type", JStr (str "Neurologist"))]])];
     eval_result := JDict [(str "score", JInt 7)] |}.

(** The clarifier answers with a bare list of questions. *)
Definition service_list_of_questions : ModelService :=
  fixed_service (says "{'symptoms': []}")
                (says "['Since when?']")
                (says "CHIEF COMPLAINT: headaches")
                (says "{}")
                (says "{'score': 7}").


(** Every model answers with whitespace. *)
Definition service_blank : ModelService :=
  fixed_service (Response (Some (str "  "))) (Response (Some nl))
                (Response (Some (str " "))) (Response (Some (str " ")))
                (Response (Some (str " "))).

(* ================================================================== *)
(** * Properties *)

Unset Implicit Arguments.

Arguments str : simpl never.
Arguments py : simpl never.
Arguments py_get : simpl never.
Arguments py_len : simpl never.
Arguments py_iter : simpl never.
Arguments py_bool : simpl never.
Arguments question_strings : simpl never.
Arguments print_routing : simpl never.
Arguments run_intake_agent : simpl never.
Arguments run_clarifier_agent : simpl never.
Arguments run_summary_agent : simpl never.
Arguments run_routing_agent : simpl never.
Arguments run_eval_agent : simpl never.
Arguments auto_answer_clarifier_questions : simpl never.

(** ** The library functions on examples *)

Example strip_example :
  strip ([160; 9]%N ++ str "a b" ++ [10; 8195]%N) = str "a b".
Proof. reflexivity. Qed.

Example slice_examples :
  slice None (Some (-3)%Z) (str "ab") = []
  /\ slice (Some 1%Z) (Some 3%Z) (str "abcd") = str "bc"
  /\ slice None (Some 200%Z) (str "abcd") = str "abcd".
Proof. repeat split. Qed.

Example find_examples :
  find lbrace (str "a{b{") = 1%Z /\ rfind rbrace (str "}a}b") = 2%Z
  /\ find lbrace (str "ab") = (-1)%Z /\ rfind rbrace [] = (-1)%Z.
Proof. repeat split. Qed.

Example json_loads_example :
  json_loads (py " {'a': 1, 'b': [true, null, -2.5e3], 'a': 'x'} ")
  = Some (JDict [(str "a", JStr (str "x"));
                 (str "b", JList [JBool true; JNull;
                                  JFloat (FDec true 25 2)])]).
Proof. vm_compute. reflexivity. Qed.

Example json_loads_rejects :
  json_loads (str "[1,]") = None /\ json_loads (py "{'a': 1,}") = None
  /\ json_loads (str "01") = None /\ json_loads (str "1.") = None
  /\ json_loads (py "{'a': 1} x") = None /\ json_loads [] = None.
Proof. repeat split. Qed.

Example json_loads_surrogate_pair :
  json_loads (py "'\ud83d\ude00 \u00e9'")
  = Some (JStr [128512; 32; 233]%N).
Proof. vm_compute. reflexivity. Qed.

(** [2.47e-324] is below half the least subnormal double and reads as
    zero; [2.48e-324] reads as the least subnormal. *)
Example tiny_floats :
  option_map py_bool (json_loads (str "2.47e-324")) = Some false
  /\ option_map py_bool (json_loads (str "2.48e-324")) = Some true
  /\ option_map py_bool (json_loads (str "-0.0")) = Some false.
Proof. repeat split; vm_compute; reflexivity. Qed.

Example print_routing_examples :
  print_routing (JDict []) = inr tt
  /\ print_routing (JList []) = inl AttributeError
  /\ print_routing (JDict [(str "recommended_doctors", JInt 3)])
     = inl TypeError
  /\ print_routing (JDict [(str "recommended_doctors", JNull)]) = inr tt
  /\ print_routing
       (JDict [(str "possible_test_categories", JList [JStr (str "Blood tests")])])
     = inl AttributeError.
Proof. repeat split. Qed.

Example question_strings_examples :
  question_strings (JList [JStr (str "a"); JStr (str "b")])
  = Ok [str "a"; str "b"]
  /\ question_strings (JStr (str "ab")) = Ok [str "a"; str "b"]
  /\ question_strings JNull = Raise TypeError
  /\ question_strings (JList [JInt 1; JList []]) = Raise TypeError
  /\ question_strings (JList [JInt 1]) = Unmodelled.
Proof. repeat split. Qed.

(** ** Strings *)

Lemma extract_stages response :
  _extract_json_from_response response
  = decode (json_span (strip (unfence (strip response)))).
Proof. reflexivity. Qed.

Lemma lstrip_app_nonspace a c r :
  isspace c = false -> lstrip (a ++ c :: r) = lstrip a ++ c :: r.
Proof.
  intros Hc. induction a as [|x a IH]; simpl.
  - now rewrite Hc.
  - destruct (isspace x); auto.
Qed.

Lemma rstrip_app_nonspace a c b :
  isspace c = false -> rstrip (a ++ c :: b) = a ++ c :: rstrip b.
Proof.
  intros Hc. unfold rstrip.
  rewrite rev_app_distr. simpl. rewrite <- app_assoc. simpl.
  rewrite lstrip_app_nonspace by assumption.
  rewrite rev_app_distr. simpl. rewrite rev_involutive, <- app_assoc.
  reflexivity.
Qed.

Lemma lstrip_suffix s : exists w, s = w ++ lstrip s.
Proof.
  induction s as [|x s [w IH]]; simpl.
  - now exists [].
  - destruct (isspace x).
    + exists (x :: w). simpl. now f_equal.
    + now exists [].
Qed.

Lemma rstrip_prefix s : exists w, s = rstrip s ++ w.
Proof.
  unfold rstrip. destruct (lstrip_suffix (rev s)) as [w H].
  exists (rev w). rewrite <- rev_app_distr, <- H. now rewrite rev_involutive.
Qed.

Lemma not_in_app_l {A} (x : A) a b : ~ In x (a ++ b) -> ~ In x a.
Proof. intros H Hi. apply H, in_or_app. now left. Qed.

Lemma not_in_app_r {A} (x : A) a b : ~ In x (a ++ b) -> ~ In x b.
Proof. intros H Hi. apply H, in_or_app. now right. Qed.

Lemma lstrip_not_in x s : ~ In x s -> ~ In x (lstrip s).
Proof.
  destruct (lstrip_suffix s) as [w H]. intros Hn. rewrite H in Hn.
  now apply not_in_app_r in Hn.
Qed.

Lemma rstrip_not_in x s : ~ In x s -> ~ In x (rstrip s).
Proof.
  destruct (rstrip_prefix s) as [w H]. intros Hn. rewrite H in Hn.
  now apply not_in_app_l in Hn.
Qed.

Lemma framed_strip m r : framed m r -> framed m (strip r).
Proof.
  intros (a & b & -> & Ha & Hb). unfold strip.
  rewrite lstrip_app_nonspace by reflexivity.
  replace (lstrip a ++ lbrace :: m ++ rbrace :: b)
    with ((lstrip a ++ lbrace :: m) ++ rbrace :: b)
    by (rewrite <- app_assoc; reflexivity).
  rewrite rstrip_app_nonspace by reflexivity.
  exists (lstrip a), (rstrip b). split.
  - rewrite <- app_assoc. reflexivity.
  - split; [now apply lstrip_not_in | now apply rstrip_not_in].
Qed.

Lemma startswith_app p x : startswith (p ++ x) p = true.
Proof.
  induction p as [|c p IH]; simpl; [reflexivity|].
  now rewrite N.eqb_refl.
Qed.

Lemma startswith_split s p : startswith s p = true -> exists x, s = p ++ x.
Proof.
  revert s. induction p as [|c p IH]; intros s H; simpl in *.
  - now exists s.
  - destruct s as [|d s]; [discriminate|].
    apply andb_true_iff in H as [H1 H2]. apply N.eqb_eq in H1. subst d.
    destruct (IH _ H2) as [x ->]. now exists x.
Qed.

Lemma endswith_split s p : endswith s p = true -> exists x, s = x ++ p.
Proof.
  unfold endswith. intros H. apply startswith_split in H as [x H].
  exists (rev x). apply (f_equal (@rev _)) in H.
  rewrite rev_involutive, rev_app_distr, rev_involutive in H. exact H.
Qed.

Lemma endswith_app x p : endswith (x ++ p) p = true.
Proof. unfold endswith. rewrite rev_app_distr. apply startswith_app. Qed.

(** A prefix without the letter [c] of [a ++ c :: x] lies within [a]. *)
Lemma prefix_before (c : char) (p a x y : pystr) :
  ~ In c p -> p ++ y = a ++ c :: x -> exists a', a = p ++ a'.
Proof.
  revert a. induction p as [|d p IH]; intros a Hn H; simpl in *.
  - now exists a.
  - destruct a as [|e a]; simpl in H.
    + injection H as H1 _. exfalso. apply Hn. now left.
    + injection H as -> H. destruct (IH a) as [a' ->]; auto.
      now exists a'.
Qed.

Lemma suffix_after (c : char) (p b x y : pystr) :
  ~ In c p -> y ++ p = x ++ c :: b -> exists b', b = b' ++ p.
Proof.
  intros Hn H. apply (f_equal (@rev _)) in H.
  rewrite !rev_app_distr in H. simpl in H. rewrite <- app_assoc in H.
  simpl in H.
  destruct (@prefix_before c (rev p) (rev b) (rev x) (rev y)) as [b' Hb]; auto.
  - rewrite <- in_rev. exact Hn.
  - exists (rev b'). apply (f_equal (@rev _)) in Hb.
    now rewrite rev_involutive, rev_app_distr, rev_involutive in Hb.
Qed.

Lemma firstn_length_app {A} (x p : list A) : firstn (length x) (x ++ p) = x.
Proof. induction x; simpl; [reflexivity | now f_equal]. Qed.

Lemma skipn_length_app {A} (x p : list A) : skipn (length x) (x ++ p) = p.
Proof. induction x; simpl; auto. Qed.

Lemma slice_from k s :
  (0 <= k)%Z -> slice (Some k) None s = skipn (Z.to_nat k) s.
Proof.
  intros Hk. unfold slice, clamp.
  destruct (Z.ltb_spec k 0); [lia|].
  destruct (Z.le_gt_cases k (Z.of_nat (length s))).
  - rewrite Z.min_l by lia.
    apply firstn_all2. rewrite length_skipn. lia.
  - rewrite Z.min_r by lia. rewrite Nat2Z.id.
    rewrite !skipn_all2 by lia. now rewrite firstn_nil.
Qed.

Lemma slice_drop_last k (x p : pystr) :
  length p = S k -> slice None (Some (- Z.of_nat (S k))%Z) (x ++ p) = x.
Proof.
  intros Hk. unfold slice, clamp. rewrite length_app, Hk.
  change (Z.to_nat 0) with 0%nat. cbv [skipn].
  destruct (Z.ltb_spec (- Z.of_nat (S k)) 0) as [_|H]; [|lia].
  rewrite Z.max_r by lia.
  match goal with |- firstn ?n _ = _ => replace n with (length x) by lia end.
  apply firstn_length_app.
Qed.

Lemma slice_window (a s b : pystr) :
  slice (Some (Z.of_nat (length a)))
        (Some (Z.of_nat (length a) + Z.of_nat (length s))%Z) (a ++ s ++ b) = s.
Proof.
  unfold slice, clamp. rewrite !length_app.
  destruct (Z.ltb_spec (Z.of_nat (length a)) 0); [lia|].
  destruct (Z.ltb_spec (Z.of_nat (length a) + Z.of_nat (length s)) 0); [lia|].
  rewrite !Z.min_l by lia. rewrite Nat2Z.id.
  rewrite skipn_length_app.
  replace (Z.to_nat _) with (length s) by lia.
  apply firstn_length_app.
Qed.

Lemma find_first c a x :
  ~ In c a -> find c (a ++ c :: x) = Z.of_nat (length a).
Proof.
  intros Hn. induction a as [|d a IH]; simpl.
  - now rewrite N.eqb_refl.
  - destruct (N.eqb_spec d c) as [->|Hd].
    + exfalso. apply Hn. now left.
    + rewrite IH by (intros Hi; apply Hn; now right).
      destruct (Z.eqb_spec (Z.of_nat (length a)) (-1)); lia.
Qed.

Lemma rfind_last c x b :
  ~ In c b -> rfind c (x ++ c :: b) = Z.of_nat (length x).
Proof.
  intros Hn. unfold rfind. rewrite rev_app_distr. simpl.
  rewrite <- app_assoc. simpl.
  rewrite find_first by (rewrite <- in_rev; exact Hn).
  rewrite length_rev, length_app. simpl.
  destruct (Z.eqb_spec (Z.of_nat (length b)) (-1)); lia.
Qed.

Lemma json_span_framed m r :
  framed m r -> json_span r = lbrace :: m ++ [rbrace].
Proof.
  intros (a & b & -> & Ha & Hb).
  set (r := a ++ lbrace :: m ++ rbrace :: b).
  assert (Hf : find lbrace r = Z.of_nat (length a))
    by (apply find_first; assumption).
  assert (Hr : rfind rbrace r = Z.of_nat (length a + S (length m))).
  { unfold r.
    replace (a ++ lbrace :: m ++ rbrace :: b)
      with ((a ++ lbrace :: m) ++ rbrace :: b)
      by (rewrite <- app_assoc; reflexivity).
    rewrite rfind_last by assumption. rewrite length_app. reflexivity. }
  unfold json_span. rewrite Hf, Hr.
  destruct (Z.eqb_spec (Z.of_nat (length a)) (-1)); [lia|].
  destruct (Z.eqb_spec (Z.of_nat (length a + S (length m))) (-1)); [lia|].
  destruct (Z.gtb_spec (Z.of_nat (length a + S (length m))) (Z.of_nat (length a)));
    [|lia].
  simpl andb. cbv iota.
  replace (Z.of_nat (length a + S (length m)) + 1)%Z
    with (Z.of_nat (length a) + Z.of_nat (length (lbrace :: m ++ [rbrace])))%Z
    by (simpl length; rewrite length_app; simpl length; lia).
  replace r with (a ++ (lbrace :: m ++ [rbrace]) ++ b)
    by (unfold r; simpl; rewrite <- app_assoc; reflexivity).
  apply slice_window.
Qed.

Lemma framed_drop_prefix p m r :
  ~ In lbrace p -> startswith r p = true -> framed m r ->
  framed m (skipn (length p) r).
Proof.
  intros Hp Hs (a & b & -> & Ha & Hb).
  apply startswith_split in Hs as [y Hy]. symmetry in Hy.
  destruct (prefix_before _ _ _ _ _ Hp Hy) as [a' ->].
  rewrite <- app_assoc, skipn_length_app.
  exists a', b. split; [reflexivity|]. split; [|assumption].
  now apply not_in_app_r in Ha.
Qed.

Lemma framed_drop_suffix k p m r :
  ~ In rbrace p -> length p = S k -> endswith r p = true -> framed m r ->
  framed m (slice None (Some (- Z.of_nat (S k))%Z) r).
Proof.
  intros Hp Hk Hs (a & b & -> & Ha & Hb).
  apply endswith_split in Hs as [y Hy]. symmetry in Hy.
  replace (a ++ lbrace :: m ++ rbrace :: b)
    with ((a ++ lbrace :: m) ++ rbrace :: b) in Hy
    by (rewrite <- app_assoc; reflexivity).
  destruct (suffix_after _ _ _ _ _ Hp Hy) as [b' ->].
  replace (a ++ lbrace :: m ++ rbrace :: b' ++ p)
    with ((a ++ lbrace :: m ++ rbrace :: b') ++ p)
    by (rewrite <- app_assoc; simpl; rewrite <- app_assoc; reflexivity).
  rewrite slice_drop_last by assumption.
  exists a, b'. split; [reflexivity|]. split; [assumption|].
  now apply not_in_app_l in Hb.
Qed.

Lemma framed_unfence m r : framed m r -> framed m (unfence r).
Proof.
  intros H. unfold unfence.
  assert (H1 : framed m
    (if startswith r (str "```json") then slice (Some 7%Z) None r
     else if startswith r (str "```") then slice (Some 3%Z) None r else r)).
  { destruct (startswith r (str "```json")) eqn:E1.
    - rewrite slice_from by lia.
      apply (@framed_drop_prefix (str "```json")); auto.
      vm_compute. intuition discriminate.
    - destruct (startswith r (str "```")) eqn:E2; [|assumption].
      rewrite slice_from by lia.
      apply (@framed_drop_prefix (str "```")); auto.
      vm_compute. intuition discriminate. }
  match goal with |- framed m (if endswith ?x _ then _ else _) =>
    set (r1 := x) in * end.
  destruct (endswith r1 (str "```")) eqn:E3; [|assumption].
  apply (@framed_drop_suffix 2 (str "```")); auto.
  vm_compute. intuition discriminate.
Qed.

Lemma extract_framed m r :
  framed m r ->
  _extract_json_from_response r = decode (lbrace :: m ++ [rbrace]).
Proof.
  intros H. rewrite extract_stages. f_equal.
  apply json_span_framed.
  now apply framed_strip, framed_unfence, framed_strip.
Qed.

(** ** The normalizer *)

Lemma decode_some s v : json_loads s = Some v -> decode s = inr v.
Proof. unfold decode. now intros ->. Qed.

(** C8.  A reply that is one span [{mid}] which [json.loads] accepts,
    possibly between prose [pre] and [post] without braces, is normalized
    to the value of exactly that span: the prose is discarded and the
    normalizer does not fail. *)
Theorem normalizer_extracts_single_span (pre mid post : pystr) (v : json) :
  ~ In lbrace pre -> ~ In rbrace pre ->
  ~ In lbrace post -> ~ In rbrace post ->
  json_loads (lbrace :: mid ++ [rbrace]) = Some v ->
  _extract_json_from_response (pre ++ (lbrace :: mid ++ [rbrace]) ++ post)
  = inr v.
Proof.
  intros Hpre _ _ Hpost Hv.
  rewrite (extract_framed mid).
  - now apply decode_some.
  - exists pre, post. split; [|now split].
    simpl. rewrite <- app_assoc. reflexivity.
Qed.

Lemma normalizer_extracts_single_span_witness :
  _extract_json_from_response
    (py "Here is the result: " ++ (lbrace :: py "'symptoms': []" ++ [rbrace])
     ++ py " Hope this helps!")
  = inr (JDict [(py "symptoms", JList [])]).
Proof.
  apply normalizer_extracts_single_span;
    vm_compute; intuition discriminate.
Defined.

Lemma lstrip_idem s : lstrip (lstrip s) = lstrip s.
Proof.
  induction s as [|c s IH]; simpl; [reflexivity|].
  destruct (isspace c) eqn:E; [exact IH|]. simpl. now rewrite E.
Qed.

Lemma rstrip_idem s : rstrip (rstrip s) = rstrip s.
Proof. unfold rstrip. now rewrite rev_involutive, lstrip_idem. Qed.

Lemma lstrip_fixed_rstrip s : lstrip s = s -> lstrip (rstrip s) = rstrip s.
Proof.
  destruct s as [|c s]; [reflexivity|]. intros H. simpl in H.
  destruct (isspace c) eqn:E.
  - exfalso. destruct (lstrip_suffix s) as [w Hw]. rewrite H in Hw.
    apply (f_equal (@length _)) in Hw. rewrite length_app in Hw.
    simpl in Hw. lia.
  - change (c :: s) with ([] ++ c :: s).
    rewrite rstrip_app_nonspace by exact E. simpl. now rewrite E.
Qed.

Lemma strip_idem s : strip (strip s) = strip s.
Proof.
  unfold strip.
  rewrite (lstrip_fixed_rstrip (lstrip s)) by apply lstrip_idem.
  apply rstrip_idem.
Qed.

Lemma startswith_prefix s p q :
  startswith s (p ++ q) = true -> startswith s p = true.
Proof.
  revert s. induction p as [|c p IH]; intros s; simpl; [reflexivity|].
  destruct s; [discriminate|]. intros H.
  apply andb_true_iff in H as [H1 H2]. rewrite H1. simpl. now apply IH.
Qed.

Lemma unfence_plain s :
  startswith s (str "```") = false -> endswith s (str "```") = false ->
  unfence s = s.
Proof.
  intros H1 H2. unfold unfence.
  destruct (startswith s (str "```json")) eqn:E.
  - apply (startswith_prefix s (str "```") (str "json")) in E. congruence.
  - now rewrite H1, H2.
Qed.

Lemma lstrip_spaces w : forallb isspace w = true -> lstrip w = [].
Proof.
  induction w as [|c w IH]; simpl; [reflexivity|].
  destruct (isspace c); [exact IH | discriminate].
Qed.

Lemma rstrip_spaces w : forallb isspace w = true -> rstrip w = [].
Proof.
  intros H. unfold rstrip. rewrite lstrip_spaces; [reflexivity|].
  apply forallb_forall. intros x Hx. apply in_rev in Hx.
  now apply (proj1 (forallb_forall _ _) H).
Qed.

(** Trimming removes the whitespace around a text that begins and ends
    with other characters, and nothing else. *)
Lemma strip_padded w1 c x d w2 :
  forallb isspace w1 = true -> forallb isspace w2 = true ->
  isspace c = false -> isspace d = false ->
  strip (w1 ++ (c :: x ++ [d]) ++ w2) = c :: x ++ [d].
Proof.
  intros H1 H2 Hc Hd. unfold strip. simpl app.
  rewrite lstrip_app_nonspace, (lstrip_spaces w1 H1) by exact Hc. simpl app.
  replace (c :: (x ++ [d]) ++ w2) with ((c :: x) ++ d :: w2)
    by (simpl; rewrite <- app_assoc; reflexivity).
  rewrite rstrip_app_nonspace, (rstrip_spaces w2 H2) by exact Hd.
  reflexivity.
Qed.

Lemma strip_fenced w1 body w2 :
  forallb isspace w1 = true -> forallb isspace w2 = true ->
  strip (w1 ++ (str "```json" ++ body ++ str "```") ++ w2)
  = str "```json" ++ body ++ str "```".
Proof.
  intros H1 H2.
  replace (str "```json" ++ body ++ str "```")
    with (96%N :: (str "``json" ++ body ++ str "``") ++ [96%N])
    by (rewrite <- !app_assoc; reflexivity).
  now apply strip_padded.
Qed.

Lemma unfence_fenced body :
  unfence (str "```json" ++ body ++ str "```") = body.
Proof.
  unfold unfence. rewrite startswith_app.
  rewrite slice_from by lia.
  change (Z.to_nat 7) with (length (str "```json")).
  rewrite skipn_length_app, endswith_app.
  apply (slice_drop_last 2). reflexivity.
Qed.

Lemma extract_fenced w1 body w2 :
  forallb isspace w1 = true -> forallb isspace w2 = true ->
  _extract_json_from_response
    (w1 ++ (str "```json" ++ body ++ str "```") ++ w2)
  = decode (json_span (strip body)).
Proof.
  intros H1 H2. now rewrite extract_stages, strip_fenced, unfence_fenced.
Qed.

Lemma first_occurrence (c : char) (s : pystr) :
  In c s -> exists a r, s = a ++ c :: r /\ ~ In c a.
Proof.
  induction s as [|d s IH]; [contradiction|].
  destruct (N.eq_dec d c) as [->|Hd].
  - intros _. exists [], s. split; [reflexivity | intros []].
  - intros [H|H]; [contradiction|].
    destruct (IH H) as (a & r & -> & Ha). exists (d :: a), r.
    split; [reflexivity|]. intros [E|E]; auto.
Qed.

Lemma last_occurrence (c : char) (s : pystr) :
  In c s -> exists a r, s = a ++ c :: r /\ ~ In c r.
Proof.
  intros H. apply in_rev in H.
  destruct (first_occurrence c (rev s) H) as (a & r & E & Ha).
  exists (rev r), (rev a). split.
  - apply (f_equal (@rev _)) in E. rewrite rev_involutive in E. rewrite E.
    rewrite rev_app_distr. simpl. now rewrite <- app_assoc.
  - now rewrite <- in_rev.
Qed.

Lemma brace_pair_framed (a m b : pystr) :
  exists m', framed m' (a ++ lbrace :: m ++ rbrace :: b).
Proof.
  set (s := a ++ lbrace :: m ++ rbrace :: b).
  assert (Hin : In lbrace s) by (apply in_or_app; right; now left).
  destruct (first_occurrence lbrace s Hin) as (a1 & r1 & E1 & Ha1).
  assert (Hr : In rbrace r1).
  { unfold s in E1. symmetry in E1.
    destruct (prefix_before _ _ _ _ _ Ha1 E1) as [a' ->].
    rewrite <- app_assoc in E1. apply app_inv_head in E1.
    destruct a' as [|x a']; simpl in E1.
    - injection E1 as E1. subst r1. apply in_or_app. right. now left.
    - injection E1 as _ E1. subst r1.
      apply in_or_app. right. right. apply in_or_app. right. now left. }
  destruct (last_occurrence rbrace r1 Hr) as (m' & b1 & E2 & Hb1).
  exists m', a1, b1. split; [|now split]. now rewrite E1, E2.
Qed.

(** C7 (amended).  The normalizer gives the same result on the fenced
    reply [```json body ```], with or without whitespace around it, and on
    [body], provided that [body], once trimmed, does not itself begin or
    end with a fence marker, or that [body] holds an opening brace with a
    closing brace somewhere after it. *)
Theorem fenced_reply_same_as_unfenced (w1 body w2 : pystr) :
  forallb isspace w1 = true -> forallb isspace w2 = true ->
  (startswith (strip body) (str "```") = false
   /\ endswith (strip body) (str "```") = false)
  \/ (exists a m b, body = a ++ lbrace :: m ++ rbrace :: b) ->
  _extract_json_from_response
    (w1 ++ (str "```json" ++ body ++ str "```") ++ w2)
  = _extract_json_from_response body.
Proof.
  intros Hw1 Hw2 [[H1 H2] | (a & m & b & ->)].
  - rewrite extract_fenced, extract_stages by assumption.
    now rewrite unfence_plain, strip_idem.
  - destruct (brace_pair_framed a m b) as [m' Hf].
    rewrite (extract_framed m' _ Hf), extract_fenced by assumption.
    f_equal. apply json_span_framed. now apply framed_strip.
Qed.

Lemma fenced_reply_same_as_unfenced_witness :
  _extract_json_from_response
    ([] ++ (str "```json" ++ (nl ++ py "{'questions': []}" ++ nl) ++ str "```")
     ++ nl)
  = _extract_json_from_response (nl ++ py "{'questions': []}" ++ nl).
Proof.
  apply fenced_reply_same_as_unfenced; try reflexivity.
  left. split; vm_compute; reflexivity.
Defined.

(** C7 as stated fails: the fence is removed once only.  Fenced, the body
    [```[]] keeps its own marker and is rejected; on its own it is unfenced
    to [[]] and decoded. *)
Lemma fenced_reply_counterexample :
  _extract_json_from_response (str "```json" ++ str "```[]" ++ str "```")
  = inl (FormatError (str "```[]"))
  /\ _extract_json_from_response (str "```[]") = inr (JList []).
Proof. split; vm_compute; reflexivity. Qed.

(** ** Replies without an opening brace *)








Arguments scanstring : simpl never.
Arguments match_number : simpl never.
Arguments parse_members : simpl never.
Arguments parse_elements : simpl never.
Arguments startswith : simpl never.

Lemma parse_elements_eq fuel s acc :
  parse_elements (S fuel) s acc =
  match scan_once fuel s with
  | None => None
  | Some (v, r) =>
      match skip_ws r with
      | e :: r1 =>
          if (e =? 93)%N then Some (JList (acc ++ [v]), r1)
          else if (e =? 44)%N
          then parse_elements fuel (skip_ws r1) (acc ++ [v])
          else None
      | [] => None
      end
  end.
Proof. reflexivity. Qed.

Lemma scan_once_eq fuel c t :
  scan_once (S fuel) (c :: t) =
  if (c =? 34)%N then
    match scanstring (S (length t)) t [] with
    | Some (x, r) => Some (JStr x, r)
    | None => None
    end
  else if (c =? lbrace)%N then
    match skip_ws t with
    | d :: r => if (d =? rbrace)%N then Some (JDict [], r)
                else parse_members fuel (d :: r) []
    | [] => None
    end
  else if (c =? 91)%N then
    match skip_ws t with
    | d :: r => if (d =? 93)%N then Some (JList [], r)
                else parse_elements fuel (d :: r) []
    | [] => None
    end
  else if startswith (c :: t) (str "null") then Some (JNull, skipn 4 (c :: t))
  else if startswith (c :: t) (str "true")
       then Some (JBool true, skipn 4 (c :: t))
  else if startswith (c :: t) (str "false")
       then Some (JBool false, skipn 5 (c :: t))
  else if startswith (c :: t) (str "NaN")
       then Some (JFloat FNaN, skipn 3 (c :: t))
  else if startswith (c :: t) (str "Infinity")
       then Some (JFloat (FInf false), skipn 8 (c :: t))
  else if startswith (c :: t) (str "-Infinity")
       then Some (JFloat (FInf true), skipn 9 (c :: t))
  else match_number (c :: t).
Proof. reflexivity. Qed.

Ltac break_match H :=
  repeat match type of H with
         | context [if ?b then _ else _] => destruct b eqn:?
         | context [match ?x with _ => _ end] => destruct x eqn:?
         | context [let (_, _) := ?x in _] => destruct x eqn:?
         end.





(** ** What the scanner consumes *)

Lemma suffix_refl s : suffix s s.
Proof. now exists []. Qed.

Lemma suffix_trans a b c : suffix a b -> suffix b c -> suffix a c.
Proof.
  intros [p ->] [q ->]. exists (q ++ p). now rewrite app_assoc.
Qed.

Lemma suffix_cons r c s : suffix r s -> suffix r (c :: s).
Proof. intros [p ->]. now exists (c :: p). Qed.

Lemma suffix_skipn n s : suffix (skipn n s) s.
Proof. exists (firstn n s). symmetry. apply firstn_skipn. Qed.

Lemma suffix_length r s : suffix r s -> length r <= length s.
Proof. intros [p ->]. rewrite length_app. lia. Qed.


Lemma skip_ws_suffix s : suffix (skip_ws s) s.
Proof.
  induction s as [|c s IH]; simpl; [apply suffix_refl|].
  destruct (json_ws c); [now apply suffix_cons | apply suffix_refl].
Qed.

Lemma digits_suffix s ds r : digits s = (ds, r) -> suffix r s.
Proof.
  revert ds r. induction s as [|c s IH]; simpl; intros ds r H.
  - injection H as _ <-. apply suffix_refl.
  - destruct (is_digit c).
    + destruct (digits s) as [ds' r'] eqn:E. injection H as _ <-.
      apply suffix_cons. now apply (IH ds').
    + injection H as _ <-. apply suffix_refl.
Qed.

Lemma hex4_suffix s x r : hex4 s = Some (x, r) -> suffix r s.
Proof.
  unfold hex4. intros H.
  destruct s as [|a [|b [|c [|d t]]]]; try discriminate.
  destruct (hex_val a), (hex_val b), (hex_val c), (hex_val d);
    try discriminate.
  injection H as _ <-. now exists [a; b; c; d].
Qed.

Lemma scanstring_eq fuel s acc :
  scanstring (S fuel) s acc =
  match s with
  | [] => None
  | c :: t =>
      if (c =? 34)%N then Some (rev acc, t)
      else if (c =? 92)%N then
        match t with
        | [] => None
        | e :: u =>
            if (e =? 117)%N then
              match hex4 u with
              | None => None
              | Some (x, r) =>
                  if high_surrogate x && startswith r [92; 117]%N then
                    match hex4 (skipn 2 r) with
                    | None => None
                    | Some (y, r') =>
                        if low_surrogate y then
                          scanstring fuel r'
                            ((65536 + ((x - 55296) * 1024 + (y - 56320)))%N
                             :: acc)
                        else scanstring fuel r (x :: acc)
                    end
                  else scanstring fuel r (x :: acc)
              end
            else
              match escape e with
              | Some x => scanstring fuel u (x :: acc)
              | None => None
              end
        end
      else if (c <=? 31)%N then None
      else scanstring fuel t (c :: acc)
  end.
Proof. reflexivity. Qed.

(** Chains of suffix facts, to a bounded depth. *)
Ltac suffix_chain n :=
  lazymatch n with
  | O => fail
  | S ?k =>
      first
        [ assumption
        | apply suffix_refl
        | apply suffix_cons; suffix_chain k
        | match goal with
          | H : suffix ?y ?x |- suffix _ ?x =>
              apply (suffix_trans _ y x); [suffix_chain k | exact H]
          end ]
  end.

Ltac suffix_solve := suffix_chain 8.

(** After a string literal the input is shorter. *)
Lemma scanstring_suffix fuel :
  forall s acc x r,
    scanstring fuel s acc = Some (x, r) ->
    exists c t, s = c :: t /\ suffix r t.
Proof.
  induction fuel as [|fuel IH]; intros s acc x r H; [discriminate|].
  rewrite scanstring_eq in H.
  destruct s as [|c t]; [discriminate|].
  exists c, t. split; [reflexivity|].
  break_match H; try discriminate;
    try (injection H as _ <-; apply suffix_refl);
    apply IH in H as (c' & t' & -> & Hs);
    repeat match goal with
           | H1 : hex4 _ = Some (_, _) |- _ => apply hex4_suffix in H1
           end;
    try match goal with
        | H1 : suffix _ (skipn 2 ?r1) |- _ => pose proof (suffix_skipn 2 r1)
        end;
    suffix_solve.
Qed.

(** Case analysis on every test of the hypotheses, innermost first. *)
Ltac break_hyps :=
  repeat match goal with
         | H : context [match ?x with _ => _ end] |- _ =>
             lazymatch x with
             | context [match _ with _ => _ end] => fail
             | _ => destruct x eqn:?
             end
         end.

Lemma match_number_suffix s v r :
  match_number s = Some (v, r) -> exists c t, s = c :: t /\ suffix r t.
Proof.
  unfold match_number. intros H.
  destruct s as [|c t]; [discriminate|].
  exists c, t. split; [reflexivity|].
  break_hyps; try discriminate;
    repeat match goal with
           | E : (_, _) = (_, _) |- _ => injection E as ? ?
           | E : Some _ = Some _ |- _ => injection E as ?
           | E : digits _ = (_, _) |- _ => apply digits_suffix in E
           end; subst;
    suffix_solve.
Qed.

Lemma parse_members_eq fuel s acc :
  parse_members (S fuel) s acc =
  match s with
  | q :: t =>
      if (q =? 34)%N then
        match scanstring (S (length t)) t [] with
        | None => None
        | Some (key, r) =>
            match skip_ws r with
            | colon :: r1 =>
                if (colon =? 58)%N then
                  match scan_once fuel (skip_ws r1) with
                  | None => None
                  | Some (v, r2) =>
                      match skip_ws r2 with
                      | e :: r3 =>
                          if (e =? rbrace)%N
                          then Some (JDict (dict_set key v acc), r3)
                          else if (e =? 44)%N
                          then parse_members fuel (skip_ws r3)
                                 (dict_set key v acc)
                          else None
                      | [] => None
                      end
                  end
                else None
            | [] => None
            end
        end
      else None
  | [] => None
  end.
Proof. reflexivity. Qed.

Lemma consumes_suffix s r : consumes s r -> suffix r s.
Proof. intros (c & t & -> & H). now apply suffix_cons. Qed.

Lemma consumes_length s r : consumes s r -> length r < length s.
Proof. intros (c & t & -> & H). apply suffix_length in H. simpl. lia. Qed.

Lemma skip_ws_cons_suffix s c r : skip_ws s = c :: r -> suffix r s.
Proof.
  intros H. pose proof (skip_ws_suffix s) as Hs. rewrite H in Hs.
  eapply suffix_trans; [|exact Hs]. apply suffix_cons, suffix_refl.
Qed.

Lemma scanner_consumes fuel :
  (forall s v r, scan_once fuel s = Some (v, r) -> consumes s r)
  /\ (forall s acc v r, parse_members fuel s acc = Some (v, r) -> consumes s r)
  /\ (forall s acc v r, parse_elements fuel s acc = Some (v, r) -> consumes s r).
Proof.
  induction fuel as [|fuel (IHs & IHm & IHe)];
    [repeat split; intros; discriminate|].
  repeat split.
  - intros s v r H. destruct s as [|c t]; [discriminate|].
    rewrite scan_once_eq in H.
    exists c, t. split; [reflexivity|].
    destruct (c =? 34)%N.
    { destruct (scanstring _ t []) as [[x r0]|] eqn:E; [|discriminate].
      injection H as _ <-. apply scanstring_suffix in E.
      now apply consumes_suffix. }
    destruct (c =? lbrace)%N.
    { destruct (skip_ws t) as [|d r0] eqn:E; [discriminate|].
      destruct (d =? rbrace)%N.
      - injection H as _ <-. now apply skip_ws_cons_suffix in E.
      - apply IHm, consumes_suffix in H.
        pose proof (skip_ws_suffix t) as Hs. rewrite E in Hs. suffix_solve. }
    destruct (c =? 91)%N.
    { destruct (skip_ws t) as [|d r0] eqn:E; [discriminate|].
      destruct (d =? 93)%N.
      - injection H as _ <-. now apply skip_ws_cons_suffix in E.
      - apply IHe, consumes_suffix in H.
        pose proof (skip_ws_suffix t) as Hs. rewrite E in Hs. suffix_solve. }
    repeat match type of H with
           | context [if ?b then _ else _] =>
               destruct b;
               [injection H as _ <-;
                first [ exact (suffix_skipn 2 t) | exact (suffix_skipn 3 t)
                      | exact (suffix_skipn 4 t) | exact (suffix_skipn 7 t)
                      | exact (suffix_skipn 8 t) ]|]
           end.
    apply match_number_suffix in H as (c' & t' & E & Hs).
    injection E as <- <-. exact Hs.
  - intros s acc v r H. destruct s as [|q t]; [discriminate|].
    rewrite parse_members_eq in H.
    exists q, t. split; [reflexivity|].
    destruct (q =? 34)%N; [|discriminate].
    destruct (scanstring _ t []) as [[key r0]|] eqn:E; [|discriminate].
    apply scanstring_suffix, consumes_suffix in E.
    destruct (skip_ws r0) as [|colon r1] eqn:E1; [discriminate|].
    apply skip_ws_cons_suffix in E1.
    destruct (colon =? 58)%N; [|discriminate].
    destruct (scan_once fuel (skip_ws r1)) as [[v0 r2]|] eqn:E2; [|discriminate].
    apply IHs, consumes_suffix in E2.
    pose proof (skip_ws_suffix r1) as Hw.
    destruct (skip_ws r2) as [|e r3] eqn:E3; [discriminate|].
    apply skip_ws_cons_suffix in E3.
    destruct (e =? rbrace)%N.
    + injection H as _ <-. suffix_solve.
    + destruct (e =? 44)%N; [|discriminate].
      apply IHm, consumes_suffix in H.
      pose proof (skip_ws_suffix r3) as Hw3. suffix_solve.
  - intros s acc v r H. rewrite parse_elements_eq in H.
    destruct (scan_once fuel s) as [[v0 r0]|] eqn:E; [|discriminate].
    apply IHs in E as (c & t & -> & Hs).
    exists c, t. split; [reflexivity|].
    destruct (skip_ws r0) as [|e r1] eqn:E1; [discriminate|].
    apply skip_ws_cons_suffix in E1.
    destruct (e =? 93)%N.
    + injection H as _ <-. suffix_solve.
    + destruct (e =? 44)%N; [|discriminate].
      apply IHe, consumes_suffix in H.
      pose proof (skip_ws_suffix r1) as Hw. suffix_solve.
Qed.




(** ** The fuel of [json_loads] *)

(** A result obtained with some fuel is obtained with any fuel from twice
    the length of the input on. *)
Lemma scanner_fuel fuel :
  (forall s x fuel',
      scan_once fuel s = Some x -> 2 * length s + 1 <= fuel' ->
      scan_once fuel' s = Some x)
  /\ (forall s acc x fuel',
         parse_members fuel s acc = Some x -> 2 * length s + 2 <= fuel' ->
         parse_members fuel' s acc = Some x)
  /\ (forall s acc x fuel',
         parse_elements fuel s acc = Some x -> 2 * length s + 2 <= fuel' ->
         parse_elements fuel' s acc = Some x).
Proof.
  induction fuel as [|fuel (IHs & IHm & IHe)];
    [repeat split; intros; discriminate|].
  repeat split.
  - intros s x fuel' H Hf. destruct s as [|c t]; [discriminate|].
    destruct fuel' as [|fuel']; [lia|].
    rewrite scan_once_eq in *. simpl length in Hf.
    destruct (c =? 34)%N; [exact H|].
    pose proof (suffix_length _ _ (skip_ws_suffix t)) as Hl.
    destruct (c =? lbrace)%N.
    { destruct (skip_ws t) as [|d r0]; [discriminate|].
      destruct (d =? rbrace)%N; [exact H|].
      apply IHm; [exact H | simpl length in *; lia]. }
    destruct (c =? 91)%N.
    { destruct (skip_ws t) as [|d r0]; [discriminate|].
      destruct (d =? 93)%N; [exact H|].
      apply IHe; [exact H | simpl length in *; lia]. }
    exact H.
  - intros s acc x fuel' H Hf. destruct s as [|q t]; [discriminate|].
    destruct fuel' as [|fuel']; [lia|].
    rewrite parse_members_eq in *. simpl length in Hf.
    destruct (q =? 34)%N; [|discriminate].
    destruct (scanstring _ t []) as [[key r0]|] eqn:E; [|discriminate].
    apply scanstring_suffix, consumes_suffix, suffix_length in E.
    pose proof (suffix_length _ _ (skip_ws_suffix r0)) as Hl0.
    destruct (skip_ws r0) as [|colon r1]; [discriminate|].
    destruct (colon =? 58)%N; [|discriminate].
    pose proof (suffix_length _ _ (skip_ws_suffix r1)) as Hl1.
    destruct (scan_once fuel (skip_ws r1)) as [[v0 r2]|] eqn:E2; [|discriminate].
    rewrite (IHs _ _ fuel' E2) by (simpl length in *; lia).
    apply scanner_consumes, consumes_length in E2.
    pose proof (suffix_length _ _ (skip_ws_suffix r2)) as Hl2.
    destruct (skip_ws r2) as [|e r3]; [discriminate|].
    destruct (e =? rbrace)%N; [exact H|].
    destruct (e =? 44)%N; [|discriminate].
    pose proof (suffix_length _ _ (skip_ws_suffix r3)) as Hl3.
    apply IHm; [exact H | simpl length in *; lia].
  - intros s acc x fuel' H Hf.
    destruct fuel' as [|fuel']; [lia|].
    rewrite parse_elements_eq in *.
    destruct (scan_once fuel s) as [[v0 r0]|] eqn:E; [|discriminate].
    rewrite (IHs _ _ fuel' E) by lia.
    apply scanner_consumes, consumes_length in E.
    pose proof (suffix_length _ _ (skip_ws_suffix r0)) as Hl0.
    destruct (skip_ws r0) as [|e r1]; [discriminate|].
    destruct (e =? 93)%N; [exact H|].
    destruct (e =? 44)%N; [|discriminate].
    pose proof (suffix_length _ _ (skip_ws_suffix r1)) as Hl1.
    apply IHe; [exact H | simpl length in *; lia].
Qed.

(** The fuel of [json_loads] is enough: what the scanner finds with any
    fuel, it finds with that of [json_loads]. *)
Lemma json_loads_fuel_enough s fuel x :
  scan_once fuel (skip_ws s) = Some x ->
  scan_once (2 * length s + 2) (skip_ws s) = Some x.
Proof.
  intros H. destruct (scanner_fuel fuel) as (Hs & _ & _).
  apply (Hs _ _ _ H).
  pose proof (suffix_length _ _ (skip_ws_suffix s)). lia.
Qed.

(** The fuel of [scanstring] in the scanner is enough as well. *)
Lemma scanstring_fuel fuel :
  forall s acc x fuel',
    scanstring fuel s acc = Some x -> length s < fuel' ->
    scanstring fuel' s acc = Some x.
Proof.
  induction fuel as [|fuel IH]; intros s acc x fuel' H Hf; [discriminate|].
  destruct fuel' as [|fuel']; [lia|].
  rewrite scanstring_eq in *.
  destruct s as [|c t]; [discriminate|]. simpl length in Hf.
  destruct (c =? 34)%N; [exact H|].
  destruct (c =? 92)%N.
  - destruct t as [|e u]; [discriminate|]. simpl length in Hf.
    destruct (e =? 117)%N.
    + destruct (hex4 u) as [[y r]|] eqn:E; [|discriminate].
      apply hex4_suffix, suffix_length in E.
      destruct (high_surrogate y && startswith r [92%N; 117%N]).
      * destruct (hex4 (skipn 2 r)) as [[z r']|] eqn:E'; [|discriminate].
        apply hex4_suffix, suffix_length in E'.
        pose proof (suffix_length _ _ (suffix_skipn 2 r)).
        destruct (low_surrogate z); (apply IH; [exact H | lia]).
      * apply IH; [exact H | lia].
    + destruct (escape e); [|discriminate]. apply IH; [exact H | lia].
  - destruct (c <=? 31)%N; [discriminate|]. apply IH; [exact H | lia].
Qed.




(** ** The agents *)

Lemma text_or_empty_no_text r :
  no_text r -> exists text, r = Response text /\ text_or_empty text = [].
Proof. intros [-> | ->]; eexists; split; reflexivity. Qed.

Ltac stage_empty H :=
  apply text_or_empty_no_text in H as (text & Hr & Ht);
  rewrite Hr, Ht; reflexivity.

Ltac stage_text H Ht :=
  rewrite H;
  match goal with t : pystr |- _ => destruct t; [congruence | assumption] end.

(** C9.  Each of the five agent functions raises [EmptyResponseError] when
    its model returns no text at all, and the four structured ones let a
    [FormatError] of the normalizer through unchanged. *)
Theorem stage_failures (json_dumps : json -> pystr) (svc : ModelService) :
  (forall raw,
      no_text (_intake_model svc raw) ->
      run_intake_agent svc raw = inl (EmptyResponseError (str "IntakeAgent")))
  /\ (forall raw intake,
         no_text (_clarifier_model svc (clarifier_prompt json_dumps raw intake)) ->
         run_clarifier_agent json_dumps svc raw intake
         = inl (EmptyResponseError (str "ClarifierAgent")))
  /\ (forall raw intake answers,
         no_text (_summary_model svc
                    (summary_prompt json_dumps raw intake answers)) ->
         run_summary_agent json_dumps svc raw intake answers
         = inl (EmptyResponseError (str "SummaryAgent")))
  /\ (forall raw intake,
         no_text (_routing_model svc (routing_prompt json_dumps raw intake)) ->
         run_routing_agent json_dumps svc raw intake
         = inl (EmptyResponseError (str "RoutingAgent")))
  /\ (forall note,
         no_text (_eval_model svc (eval_prompt note)) ->
         run_eval_agent svc note = inl (EmptyResponseError (str "EvalAgent")))
  /\ (forall raw t preview,
         _intake_model svc raw = Response (Some t) -> t <> [] ->
         _extract_json_from_response t = inl (FormatError preview) ->
         run_intake_agent svc raw = inl (FormatError preview))
  /\ (forall raw intake t preview,
         _clarifier_model svc (clarifier_prompt json_dumps raw intake)
         = Response (Some t) -> t <> [] ->
         _extract_json_from_response t = inl (FormatError preview) ->
         run_clarifier_agent json_dumps svc raw intake
         = inl (FormatError preview))
  /\ (forall raw intake t preview,
         _routing_model svc (routing_prompt json_dumps raw intake)
         = Response (Some t) -> t <> [] ->
         _extract_json_from_response t = inl (FormatError preview) ->
         run_routing_agent json_dumps svc raw intake
         = inl (FormatError preview))
  /\ (forall note t preview,
         _eval_model svc (eval_prompt note) = Response (Some t) -> t <> [] ->
         _extract_json_from_response t = inl (FormatError preview) ->
         run_eval_agent svc note = inl (FormatError preview)).
Proof.
  unfold run_intake_agent, run_clarifier_agent, run_summary_agent,
    run_routing_agent, run_eval_agent.
  repeat split.
  - intros raw H. stage_empty H.
  - intros raw intake H. stage_empty H.
  - intros raw intake answers H. stage_empty H.
  - intros raw intake H. stage_empty H.
  - intros note H. stage_empty H.
  - intros raw t preview H Ht He. stage_text H Ht.
  - intros raw intake t preview H Ht He. stage_text H Ht.
  - intros raw intake t preview H Ht He. stage_text H Ht.
  - intros note t preview H Ht He. stage_text H Ht.
Qed.

(** ** Dictionaries and the auto answers *)

Lemma pystr_eqb_spec a b : reflect (a = b) (pystr_eqb a b).
Proof.
  revert b. induction a as [|x a IH]; destruct b as [|y b]; simpl;
    try (constructor; congruence).
  destruct (N.eqb_spec x y) as [->|Hxy]; simpl.
  - destruct (IH b) as [->|Hab]; constructor; congruence.
  - constructor. congruence.
Qed.

Section DictFacts.
Variable V : Type.
Implicit Types (d : dict V) (k : pystr) (v : V).

Lemma dict_get_set_same k v d : dict_get k (dict_set k v d) = Some v.
Proof.
  induction d as [|[k' v'] d IH]; simpl.
  - destruct (pystr_eqb_spec k k); congruence.
  - destruct (pystr_eqb_spec k k') as [->|Hk]; simpl.
    + destruct (pystr_eqb_spec k' k'); congruence.
    + destruct (pystr_eqb_spec k k'); congruence.
Qed.

Lemma dict_get_set_other k k' v d :
  k' <> k -> dict_get k' (dict_set k v d) = dict_get k' d.
Proof.
  intros Hk. induction d as [|[k0 v0] d IH]; simpl.
  - destruct (pystr_eqb_spec k' k); congruence.
  - destruct (pystr_eqb_spec k k0) as [->|H0]; simpl.
    + destruct (pystr_eqb_spec k' k0); congruence.
    + destruct (pystr_eqb_spec k' k0); congruence.
Qed.

Lemma keys_dict_set_in k v d q :
  In q (keys (dict_set k v d)) <-> q = k \/ In q (keys d).
Proof.
  unfold keys. induction d as [|[k' v'] d IH]; simpl.
  - intuition congruence.
  - destruct (pystr_eqb_spec k k') as [->|Hk]; simpl.
    + intuition congruence.
    + rewrite IH. intuition congruence.
Qed.

Lemma keys_dict_set_nodup k v d :
  NoDup (keys d) -> NoDup (keys (dict_set k v d)).
Proof.
  induction d as [|[k' v'] d IH]; simpl.
  - intros _. repeat constructor. intros [].
  - intros H. inversion H as [|? ? Hn Hd]; subst.
    destruct (pystr_eqb_spec k k') as [->|Hk]; simpl.
    + exact H.
    + constructor; [|now apply IH].
      intros Hi. apply (keys_dict_set_in k v d k') in Hi as [Hi|Hi];
        [congruence | contradiction].
Qed.
End DictFacts.

Lemma auto_answers_fold questions :
  forall acc q,
    let answers :=
      fold_left (fun answers question =>
                   dict_set question (demo_answer question) answers)
                questions acc in
    (In q questions -> dict_get q answers = Some (demo_answer q))
    /\ (~ In q questions -> dict_get q answers = dict_get q acc)
    /\ (In q (keys answers) <-> In q questions \/ In q (keys acc))
    /\ (NoDup (keys acc) -> NoDup (keys answers)).
Proof.
  induction questions as [|q0 qs IH]; intros acc q; simpl.
  - intuition.
  - destruct (IH (dict_set q0 (demo_answer q0) acc) q) as (H1 & H2 & H3 & H4).
    repeat split.
    + intros [->|Hq].
      * destruct (in_dec (list_eq_dec N.eq_dec) q qs) as [Hi|Hi]; [auto|].
        rewrite (H2 Hi). apply dict_get_set_same.
      * auto.
    + intros Hn. rewrite H2 by tauto. apply dict_get_set_other.
      intros ->. tauto.
    + intros H. apply H3 in H as [H|H]; [tauto|].
      apply keys_dict_set_in in H as [->|H]; tauto.
    + intros [[->|H]|H]; apply H3.
      * right. apply keys_dict_set_in. now left.
      * now left.
      * right. apply keys_dict_set_in. now right.
    + intros Hnd. apply H4. now apply keys_dict_set_nodup.
Qed.

Lemma auto_answers_spec questions q :
  (In q questions ->
   dict_get q (auto_answer_clarifier_questions questions)
   = Some (str "Demo answer for: " ++ q))
  /\ (~ In q questions ->
      dict_get q (auto_answer_clarifier_questions questions) = None)
  /\ (In q (keys (auto_answer_clarifier_questions questions))
      <-> In q questions)
  /\ NoDup (keys (auto_answer_clarifier_questions questions)).
Proof.
  destruct (auto_answers_fold questions [] q) as (H1 & H2 & H3 & H4).
  repeat split; auto.
  - intros H. apply H3 in H as [H|[]]. exact H.
  - intros H. apply H3. now left.
  - apply H4. constructor.
Qed.

(** ** The pipeline *)

Ltac unfold_run :=
  unfold run_niracare_demo, run_niracare_with_user_answers, step_intake,
    step_clarifier, step_auto_answers, step_summary, step_routing, step_eval,
    print_summary, bind, try_except, invoke, lift, assign, get_session, ret,
    raise, finish.

Ltac case_step :=
  match goal with
  | |- context [match ?x with _ => _ end] =>
      lazymatch x with
      | context [match _ with _ => _ end] => fail
      | _ => destruct x eqn:?
      end
  end; cbn.

(** C5 (the code departs from the claim).  [run_niracare_with_user_answers]
    never calls the RoutingAgent: whatever the models answer, the log of
    the run holds no routing call and the routing field is still the empty
    dictionary at the end. *)
Theorem user_answers_run_skips_routing
    (json_dumps : json -> pystr) (svc : ModelService)
    (raw : pystr) (user_answers : dict pystr) :
  routing_guidance
    (session (snd (run_niracare_with_user_answers json_dumps svc raw user_answers)))
  = JDict []
  /\ forall r i,
      ~ In (CallRouting r i)
          (calls (snd (run_niracare_with_user_answers json_dumps svc raw
                         user_answers))).
Proof.
  unfold_run. cbn. repeat case_step;
    (split; [reflexivity | intros r i H; simpl in H; intuition discriminate]).
Qed.

Lemma question_strings_iter qs l :
  question_strings qs = Ok l -> exists items, py_iter qs = inr items.
Proof.
  unfold question_strings. destruct (py_iter qs); [discriminate|]. eauto.
Qed.


Section Runs.
Variable json_dumps : json -> pystr.
Variable svc : ModelService.
Variable raw : pystr.





Variable user_answers : dict pystr.





Lemma user_run_completes v1 out qs note v6 :
  run_intake_agent svc raw = inr v1 ->
  run_clarifier_agent json_dumps svc raw v1 = inr out ->
  py_get out (str "questions") (JList []) = inr qs ->
  run_summary_agent json_dumps svc raw v1 user_answers = inr note ->
  run_eval_agent svc note = inr v6 ->
  run_niracare_with_user_answers json_dumps svc raw user_answers =
    (Ok (Build_NiraSession raw v1 qs user_answers note (JDict []) v6),
     {| session := Build_NiraSession raw v1 qs user_answers note
                     (JDict []) v6;
        calls := [CallIntake raw; CallClarifier raw v1;
                  CallSummary raw v1 user_answers; CallEval note] |}).
Proof.
  intros H1 H2 H3 H4 H5. unfold_run. cbn. rewrite H1. cbn. rewrite H2. cbn.
  rewrite H3. cbn. rewrite H4. cbn. rewrite H5. reflexivity.
Qed.

End Runs.

Section Reach.
Variable json_dumps : json -> pystr.
Variable svc : ModelService.
Variable raw : pystr.

Lemma demo_reaches_summary v1 out qs l :
  run_intake_agent svc raw = inr v1 ->
  run_clarifier_agent json_dumps svc raw v1 = inr out ->
  py_get out (str "questions") (JList []) = inr qs ->
  question_strings qs = Ok l ->
  let st := snd (run_niracare_demo json_dumps svc raw) in
  clarifier_questions (session st) = qs
  /\ clarifier_answers (session st) = auto_answer_clarifier_questions l
  /\ In (CallSummary raw v1 (auto_answer_clarifier_questions l)) (calls st).
Proof.
  intros H1 H2 H3 H4.
  destruct (question_strings_iter _ _ H4) as [items Hi].
  unfold_run. cbn. rewrite H1. cbn. rewrite H2. cbn. rewrite H3. cbn.
  rewrite Hi.
  destruct (py_bool qs); cbn; rewrite H4; cbn; repeat case_step;
    (split; [reflexivity | split; [reflexivity | simpl; tauto]]).
Qed.

Lemma user_reaches_summary user_answers v1 out qs :
  run_intake_agent svc raw = inr v1 ->
  run_clarifier_agent json_dumps svc raw v1 = inr out ->
  py_get out (str "questions") (JList []) = inr qs ->
  let st := snd (run_niracare_with_user_answers json_dumps svc raw
                   user_answers) in
  clarifier_questions (session st) = qs
  /\ clarifier_answers (session st) = user_answers
  /\ In (CallSummary raw v1 user_answers) (calls st).
Proof.
  intros H1 H2 H3.
  unfold_run. cbn. rewrite H1. cbn. rewrite H2. cbn. rewrite H3. cbn.
  repeat case_step;
    (split; [reflexivity | split; [reflexivity | simpl; tauto]]).
Qed.
End Reach.

Lemma py_get_missing d k default :
  dict_get k d = None -> py_get (JDict d) k default = inr default.
Proof. unfold py_get. now intros ->. Qed.

(** C10.  When the clarifier's reply parses to an object without the key
    [questions], both entry points store the empty question list and go on
    to call the SummaryAgent: with the empty answers mapping in auto-answer
    mode, with the caller's mapping in supplied-answer mode. *)
Theorem missing_questions_key_means_no_questions
    (json_dumps : json -> pystr) (svc : ModelService) (raw : pystr)
    (user_answers : dict pystr) (v1 : json) (d : dict json) :
  run_intake_agent svc raw = inr v1 ->
  run_clarifier_agent json_dumps svc raw v1 = inr (JDict d) ->
  dict_get (str "questions") d = None ->
  (let st := snd (run_niracare_demo json_dumps svc raw) in
   clarifier_questions (session st) = JList []
   /\ clarifier_answers (session st) = []
   /\ In (CallSummary raw v1 []) (calls st))
  /\ (let st := snd (run_niracare_with_user_answers json_dumps svc raw
                       user_answers) in
      clarifier_questions (session st) = JList []
      /\ clarifier_answers (session st) = user_answers
      /\ In (CallSummary raw v1 user_answers) (calls st)).
Proof.
  intros H1 H2 Hd.
  pose proof (py_get_missing d (str "questions") (JList []) Hd) as H3.
  split.
  - apply (demo_reaches_summary json_dumps svc raw v1 (JDict d) (JList []) []);
      auto.
  - apply (user_reaches_summary json_dumps svc raw user_answers v1 (JDict d));
      auto.
Qed.

(** C4 (amended).  In supplied-answer mode the caller's mapping becomes the
    answers mapping of the session as it is, whatever the clarifier asked,
    and it is what the SummaryAgent receives; no placeholder is added. *)
Theorem user_answers_are_used_verbatim
    (json_dumps : json -> pystr) (svc : ModelService) (raw : pystr)
    (user_answers : dict pystr) (v1 out qs : json) :
  run_intake_agent svc raw = inr v1 ->
  run_clarifier_agent json_dumps svc raw v1 = inr out ->
  py_get out (str "questions") (JList []) = inr qs ->
  let st := snd (run_niracare_with_user_answers json_dumps svc raw
                   user_answers) in
  clarifier_questions (session st) = qs
  /\ clarifier_answers (session st) = user_answers
  /\ In (CallSummary raw v1 user_answers) (calls st).
Proof. apply user_reaches_summary. Qed.


(** ** Runs of the two entry points *)







Lemma user_answers_are_used_verbatim_witness :
  let st := snd (run_niracare_with_user_answers no_dumps service_all_fine
                   headache [(str "Since when?", str "Two weeks")]) in
  clarifier_questions (session st) = JList [JStr (str "Since when?")]
  /\ clarifier_answers (session st) = [(str "Since when?", str "Two weeks")]
  /\ In (CallSummary headache (JDict [(str "symptoms", JList [])])
           [(str "Since when?", str "Two weeks")]) (calls st).
Proof.
  apply (user_answers_are_used_verbatim no_dumps service_all_fine headache
           [(str "Since when?", str "Two weeks")]
           (JDict [(str "symptoms", JList [])])
           (JDict [(str "questions", JList [JStr (str "Since when?")])]));
    vm_compute; reflexivity.
Defined.

(** C4 as stated fails: with the question [Since when?] and the empty
    mapping, the session's answers mapping has no answer for the
    question. *)
Lemma user_answers_counterexample :
  exists s,
    fst (run_niracare_with_user_answers no_dumps service_all_fine headache [])
    = Ok s
    /\ clarifier_questions s = JList [JStr (str "Since when?")]
    /\ dict_get (str "Since when?") (clarifier_answers s) = None.
Proof. eexists. repeat split; vm_compute; reflexivity. Qed.

(** The run of [run_niracare_with_user_answers] where every model answers
    well: four calls, none of the RoutingAgent, although it would have
    answered. *)
Lemma user_answers_run_at_failing_input :
  exists s,
    run_niracare_with_user_answers no_dumps service_all_fine headache
      [(str "Since when?", str "Two weeks")]
    = (Ok s,
       {| session := s;
          calls := [CallIntake headache;
                    CallClarifier headache (JDict [(str "symptoms", JList [])]);
                    CallSummary headache (JDict [(str "symptoms", JList [])])
                      [(str "Since when?", str "Two weeks")];
                    CallEval (str "CHIEF COMPLAINT: headaches")] |})
    /\ routing_guidance s = JDict []
    /\ run_routing_agent no_dumps service_all_fine headache
         (JDict [(str "symptoms", JList [])])
       = inr (JDict [(str "recommended_doctors",
                      JList [JDict [(str "type", JStr (str "Neurologist"))]])]).
Proof. eexists. repeat split; vm_compute; reflexivity. Qed.


Lemma stage_failures_witness :
  run_intake_agent
    (fixed_service (Response None) (Response None) (Response None)
       (Response None) (Response None)) headache
  = inl (EmptyResponseError (str "IntakeAgent"))
  /\ run_eval_agent
       (fixed_service (Response None) (Response None) (Response None)
          (Response None) (says "not json")) (str "a note")
     = inl (FormatError (str "not json")).
Proof.
  split.
  - apply (stage_failures no_dumps). left. reflexivity.
  - apply (stage_failures no_dumps
             (fixed_service (Response None) (Response None) (Response None)
                (Response None) (says "not json")) )
      with (t := str "not json").
    + reflexivity.
    + discriminate.
    + vm_compute. reflexivity.
Defined.

Lemma missing_questions_key_means_no_questions_witness :
  (let st := snd (run_niracare_demo no_dumps service_no_questions_key
                    headache) in
   clarifier_questions (session st) = JList []
   /\ clarifier_answers (session st) = []
   /\ In (CallSummary headache (JDict [(str "symptoms", JList [])]) [])
        (calls st))
  /\ (let st := snd (run_niracare_with_user_answers no_dumps
                       service_no_questions_key headache []) in
      clarifier_questions (session st) = JList []
      /\ clarifier_answers (session st) = []
      /\ In (CallSummary headache (JDict [(str "symptoms", JList [])]) [])
           (calls st)).
Proof.
  apply (missing_questions_key_means_no_questions no_dumps
           service_no_questions_key headache []
           (JDict [(str "symptoms", JList [])])
           [(str "note", JStr (str "nothing to ask"))]);
    vm_compute; reflexivity.
Defined.

(* ================================================================== *)
(** * Further properties *)

Arguments print_entries : simpl never.
Arguments answer_text : simpl never.
Arguments lower_is : simpl never.
Arguments join : simpl never.

(** ** More on the normalizer *)

Lemma lstrip_app_spaces w x :
  forallb isspace w = true -> lstrip (w ++ x) = lstrip x.
Proof.
  induction w as [|c w IH]; simpl; [reflexivity|].
  destruct (isspace c); [exact IH | discriminate].
Qed.

Lemma forallb_rev {A} (f : A -> bool) l :
  forallb f l = true -> forallb f (rev l) = true.
Proof.
  intros H. apply forallb_forall. intros x Hx. apply in_rev in Hx.
  now apply (proj1 (forallb_forall _ _) H).
Qed.

Lemma rstrip_app_spaces x w :
  forallb isspace w = true -> rstrip (x ++ w) = rstrip x.
Proof.
  intros H. unfold rstrip. rewrite rev_app_distr.
  now rewrite lstrip_app_spaces by now apply forallb_rev.
Qed.

Lemma strip_app_spaces r w :
  forallb isspace w = true -> strip (r ++ w) = strip r.
Proof.
  intros H. unfold strip. induction r as [|c r IH]; simpl.
  - now rewrite (lstrip_spaces w H).
  - destruct (isspace c); [exact IH|].
    change (c :: r ++ w) with ((c :: r) ++ w). now apply rstrip_app_spaces.
Qed.

Lemma strip_padding w1 r w2 :
  forallb isspace w1 = true -> forallb isspace w2 = true ->
  strip (w1 ++ r ++ w2) = strip r.
Proof.
  intros H1 H2. unfold strip at 1. rewrite lstrip_app_spaces by exact H1.
  now apply strip_app_spaces.
Qed.

(** Whitespace around a reply never changes what the normalizer makes of
    it. *)
Theorem normalizer_ignores_padding (w1 response w2 : pystr) :
  forallb isspace w1 = true -> forallb isspace w2 = true ->
  _extract_json_from_response (w1 ++ response ++ w2)
  = _extract_json_from_response response.
Proof.
  intros H1 H2. rewrite !extract_stages. now rewrite strip_padding.
Qed.

Lemma normalizer_ignores_padding_witness :
  _extract_json_from_response (str "  " ++ py "{'symptoms': []}" ++ nl)
  = _extract_json_from_response (py "{'symptoms': []}").
Proof. apply normalizer_ignores_padding; reflexivity. Defined.

(** Only the text from the first opening brace to the last closing brace
    counts: the result is the decoded span, or a [FormatError] whose
    preview starts at the span. *)
Theorem normalizer_decodes_the_outer_span
    (before inside after : pystr) :
  ~ In lbrace before -> ~ In rbrace after ->
  _extract_json_from_response
    (before ++ lbrace :: inside ++ rbrace :: after)
  = match json_loads (lbrace :: inside ++ [rbrace]) with
    | Some v => inr v
    | None =>
        inl (FormatError
               (slice None (Some 200%Z) (lbrace :: inside ++ [rbrace])))
    end.
Proof.
  intros Ha Hb. rewrite (extract_framed inside); [reflexivity|].
  exists before, after. auto.
Qed.

Lemma normalizer_decodes_the_outer_span_witness :
  _extract_json_from_response
    (str "} Result: " ++ lbrace :: py "'a': 1," ++ rbrace :: str " {ok")
  = inl (FormatError (py "{'a': 1,}")).
Proof.
  rewrite normalizer_decodes_the_outer_span;
    [vm_compute; reflexivity | vm_compute; intuition discriminate
    | vm_compute; intuition discriminate].
Defined.

Lemma part_refl s : part s s.
Proof. exists [], []. now rewrite app_nil_r. Qed.

Lemma part_trans a b c : part a b -> part b c -> part a c.
Proof.
  intros (x & y & ->) (u & v & ->). exists (u ++ x), (y ++ v).
  now rewrite <- !app_assoc.
Qed.

Lemma part_firstn n s : part (firstn n s) s.
Proof. exists [], (skipn n s). simpl. now rewrite firstn_skipn. Qed.

Lemma part_skipn n s : part (skipn n s) s.
Proof. exists (firstn n s), []. now rewrite app_nil_r, firstn_skipn. Qed.

Lemma part_slice lo hi s : part (slice lo hi s) s.
Proof.
  unfold slice. eapply part_trans; [apply part_firstn | apply part_skipn].
Qed.

Lemma part_strip s : part (strip s) s.
Proof.
  unfold strip. destruct (rstrip_prefix (lstrip s)) as [w Hw].
  destruct (lstrip_suffix s) as [v Hv].
  exists v, w. now rewrite <- Hw.
Qed.

Lemma part_unfence s : part (unfence s) s.
Proof.
  unfold unfence.
  repeat match goal with
         | |- context [if ?c then _ else _] => destruct c
         end;
    repeat first [apply part_refl | apply part_slice
                 | eapply part_trans; [apply part_slice|]].
Qed.

Lemma part_json_span s : part (json_span s) s.
Proof.
  unfold json_span.
  match goal with |- context [if ?c then _ else _] => destruct c end;
    [apply part_slice | apply part_refl].
Qed.

Lemma slice_preview_length s :
  length (slice None (Some 200%Z) s) <= 200.
Proof.
  unfold slice, clamp. rewrite length_firstn. simpl skipn.
  destruct (Z.ltb_spec 200 0); lia.
Qed.

(** What the normalizer returns is decoded from a piece of the reply as
    it stands, and when it rejects the reply, the preview in its error is
    such a piece, of at most 200 characters. *)
Theorem normalizer_reads_a_piece_of_the_reply (response : pystr) :
  (forall v,
      _extract_json_from_response response = inr v ->
      exists s, part s response /\ json_loads s = Some v)
  /\ (forall preview,
         _extract_json_from_response response = inl (FormatError preview) ->
         length preview <= 200 /\ part preview response).
Proof.
  assert (Hp : part (json_span (strip (unfence (strip response)))) response).
  { eapply part_trans; [apply part_json_span|].
    eapply part_trans; [apply part_strip|].
    eapply part_trans; [apply part_unfence | apply part_strip]. }
  rewrite extract_stages. unfold decode.
  destruct (json_loads _) as [v0|] eqn:E; split; try discriminate.
  - intros v H. injection H as <-. eauto.
  - intros preview H. injection H as <-.
    split; [apply slice_preview_length|].
    eapply part_trans; [apply part_slice | exact Hp].
Qed.

Lemma normalizer_reads_a_piece_of_the_reply_witness :
  length (str "Sorry, I cannot help.") <= 200
  /\ part (str "Sorry, I cannot help.") (str "  Sorry, I cannot help.  ").
Proof.
  apply (normalizer_reads_a_piece_of_the_reply
           (str "  Sorry, I cannot help.  ")).
  vm_compute. reflexivity.
Defined.

(** *** The fence without a language tag *)

Lemma startswith_json_app body x :
  startswith body (str "json") = false ->
  startswith (body ++ 96%N :: x) (str "json") = false.
Proof.
  change (str "json") with [106; 115; 111; 110]%N.
  destruct body as [|c1 [|c2 [|c3 [|c4 t]]]]; cbn [app]; cbv [startswith];
    intros H;
    repeat match goal with
           | |- context [(?a =? ?b)%N] =>
               lazymatch b with
               | N.pos _ => change (a =? b)%N with false
               | _ => destruct (a =? b)%N
               end
           end; cbn [andb] in *; congruence.
Qed.

Lemma strip_bare_fenced w1 body w2 :
  forallb isspace w1 = true -> forallb isspace w2 = true ->
  strip (w1 ++ (str "```" ++ body ++ str "```") ++ w2)
  = str "```" ++ body ++ str "```".
Proof.
  intros H1 H2.
  replace (str "```" ++ body ++ str "```")
    with (96%N :: (str "``" ++ body ++ str "``") ++ [96%N])
    by (rewrite <- !app_assoc; reflexivity).
  now apply strip_padded.
Qed.

Lemma unfence_bare_fenced body :
  startswith body (str "json") = false ->
  unfence (str "```" ++ body ++ str "```") = body.
Proof.
  intros Hb. unfold unfence.
  replace (startswith (str "```" ++ body ++ str "```") (str "```json"))
    with false.
  - rewrite startswith_app. rewrite slice_from by lia.
    change (Z.to_nat 3) with (length (str "```")).
    rewrite skipn_length_app, endswith_app.
    apply (slice_drop_last 2). reflexivity.
  - symmetry.
    change (startswith (body ++ 96%N :: str "``") (str "json") = false).
    now apply startswith_json_app.
Qed.

(** A reply fenced with the bare marker, with or without whitespace around
    it, is read as its body is, provided that the body does not begin with
    the word [json] and, once trimmed, does not itself begin or end with a
    marker, or holds an opening brace with a closing brace after it. *)
Theorem bare_fence_same_as_unfenced (w1 body w2 : pystr) :
  forallb isspace w1 = true -> forallb isspace w2 = true ->
  startswith body (str "json") = false ->
  (startswith (strip body) (str "```") = false
   /\ endswith (strip body) (str "```") = false)
  \/ (exists a m b, body = a ++ lbrace :: m ++ rbrace :: b) ->
  _extract_json_from_response
    (w1 ++ (str "```" ++ body ++ str "```") ++ w2)
  = _extract_json_from_response body.
Proof.
  intros Hw1 Hw2 Hj H.
  assert (E : _extract_json_from_response
                (w1 ++ (str "```" ++ body ++ str "```") ++ w2)
              = decode (json_span (strip body))).
  { rewrite extract_stages, strip_bare_fenced by assumption.
    now rewrite unfence_bare_fenced. }
  rewrite E. destruct H as [[H1 H2] | (a & m & b & ->)].
  - rewrite extract_stages. now rewrite unfence_plain, strip_idem.
  - destruct (brace_pair_framed a m b) as [m' Hf].
    rewrite (extract_framed m' _ Hf).
    f_equal. apply json_span_framed. now apply framed_strip.
Qed.

Lemma bare_fence_same_as_unfenced_witness :
  _extract_json_from_response
    (nl ++ (str "```" ++ (nl ++ py "{'score': 7}" ++ nl) ++ str "```") ++ [])
  = _extract_json_from_response (nl ++ py "{'score': 7}" ++ nl).
Proof.
  apply bare_fence_same_as_unfenced; try reflexivity.
  right. exists nl, (py "'score': 7"), nl. reflexivity.
Defined.

(** ** More on the agents *)

Lemma extract_blank w :
  forallb isspace w = true ->
  _extract_json_from_response w = inl (FormatError []).
Proof.
  intros H. rewrite extract_stages.
  replace (strip w) with (@nil char).
  - reflexivity.
  - unfold strip. now rewrite (lstrip_spaces w H).
Qed.

Lemma strip_blank w : forallb isspace w = true -> strip w = [].
Proof. intros H. unfold strip. now rewrite (lstrip_spaces w H). Qed.

Ltac stage_blank H :=
  destruct H as (c & w & Hr & Hw); rewrite Hr; cbn [text_or_empty];
  first [now rewrite extract_blank | now rewrite strip_blank].

(** A reply of whitespace only is not taken for a missing response: the
    four structured agents reject it with a [FormatError] whose preview is
    empty, and the SummaryAgent returns the empty note. *)
Theorem blank_reply_is_not_empty
    (json_dumps : json -> pystr) (svc : ModelService) :
  (forall raw,
      blank (_intake_model svc raw) ->
      run_intake_agent svc raw = inl (FormatError []))
  /\ (forall raw intake,
         blank (_clarifier_model svc (clarifier_prompt json_dumps raw intake)) ->
         run_clarifier_agent json_dumps svc raw intake = inl (FormatError []))
  /\ (forall raw intake answers,
         blank (_summary_model svc
                  (summary_prompt json_dumps raw intake answers)) ->
         run_summary_agent json_dumps svc raw intake answers = inr [])
  /\ (forall raw intake,
         blank (_routing_model svc (routing_prompt json_dumps raw intake)) ->
         run_routing_agent json_dumps svc raw intake = inl (FormatError []))
  /\ (forall note,
         blank (_eval_model svc (eval_prompt note)) ->
         run_eval_agent svc note = inl (FormatError [])).
Proof.
  unfold run_intake_agent, run_clarifier_agent, run_summary_agent,
    run_routing_agent, run_eval_agent.
  repeat split.
  - intros raw H. stage_blank H.
  - intros raw intake H. stage_blank H.
  - intros raw intake answers H. stage_blank H.
  - intros raw intake H. stage_blank H.
  - intros note H. stage_blank H.
Qed.

Lemma blank_reply_is_not_empty_witness :
  run_intake_agent service_blank headache = inl (FormatError [])
  /\ run_summary_agent no_dumps service_blank headache (JDict []) [] = inr [].
Proof.
  destruct (blank_reply_is_not_empty no_dumps service_blank)
    as (H1 & _ & H3 & _).
  split.
  - apply H1. exists 32%N, [32%N]. split; reflexivity.
  - apply H3. exists 32%N, []. split; reflexivity.
Defined.

Lemma lstrip_head s c t : lstrip s = c :: t -> isspace c = false.
Proof.
  induction s as [|x s IH]; simpl; [discriminate|].
  destruct (isspace x) eqn:E; [exact IH|]. intros H. injection H as <- _.
  exact E.
Qed.

Lemma strip_head s c t : strip s = c :: t -> isspace c = false.
Proof.
  unfold strip. intros H.
  destruct (rstrip_prefix (lstrip s)) as [w Hw]. rewrite H in Hw.
  simpl in Hw. now apply lstrip_head in Hw.
Qed.

Lemma rstrip_last s t c : rstrip s = t ++ [c] -> isspace c = false.
Proof.
  unfold rstrip. intros H. apply (f_equal (@rev _)) in H.
  rewrite rev_involutive, rev_app_distr in H. simpl in H.
  now apply lstrip_head in H.
Qed.

Lemma strip_last s t c : strip s = t ++ [c] -> isspace c = false.
Proof. unfold strip. apply rstrip_last. Qed.

(** The note that [run_summary_agent] returns is the model's text without
    the whitespace around it: it neither begins nor ends with a whitespace
    character, and it is a piece of what the model wrote. *)
Theorem summary_note_is_trimmed
    (json_dumps : json -> pystr) (svc : ModelService)
    (raw : pystr) (intake : json) (answers : dict pystr) (note : pystr) :
  run_summary_agent json_dumps svc raw intake answers = inr note ->
  (forall c t, note = c :: t -> isspace c = false)
  /\ (forall t c, note = t ++ [c] -> isspace c = false)
  /\ exists text,
      _summary_model svc (summary_prompt json_dumps raw intake answers)
      = Response (Some text)
      /\ part note text.
Proof.
  unfold run_summary_agent.
  destruct (_summary_model svc _) as [e|[text|]]; try discriminate.
  destruct text as [|c0 text]; [discriminate|]. cbn [text_or_empty].
  intros H. injection H as <-. split; [|split].
  - intros c t. apply strip_head.
  - intros t c. apply strip_last.
  - eexists. split; [reflexivity | apply part_strip].
Qed.

Lemma summary_note_is_trimmed_witness :
  (forall c t, str "CHIEF COMPLAINT: headaches" = c :: t -> isspace c = false)
  /\ (forall t c, str "CHIEF COMPLAINT: headaches" = t ++ [c]
                  -> isspace c = false)
  /\ exists text,
      _summary_model service_all_fine
        (summary_prompt no_dumps headache (JDict []) [])
      = Response (Some text)
      /\ part (str "CHIEF COMPLAINT: headaches") text.
Proof.
  apply (summary_note_is_trimmed no_dumps service_all_fine headache
           (JDict []) []).
  reflexivity.
Defined.

(** ** What the entry points return *)

Lemma py_get_ok v k default x : py_get v k default = inr x -> is_object v.
Proof. destruct v; try discriminate. intros _. eexists. reflexivity. Qed.

Section DemoReturns.
Variable json_dumps : json -> pystr.
Variable svc : ModelService.
Variable raw : pystr.

Lemma demo_ok_inv s st :
  run_niracare_demo json_dumps svc raw = (Ok s, st) ->
  demo_chain json_dumps svc raw s /\ summary_readable s
  /\ st = {| session := s; calls := demo_calls raw s |}.
Proof.
  unfold demo_chain, summary_readable, demo_calls, routing_outcome.
  unfold_run. cbn.
  destruct (run_intake_agent svc raw) as [e1|v1] eqn:H1; cbn;
    [discriminate|].
  destruct (run_clarifier_agent json_dumps svc raw v1) as [e2|out] eqn:H2;
    cbn; [discriminate|].
  destruct (py_get out (str "questions") (JList [])) as [e3|qs] eqn:H3;
    cbn; [discriminate|].
  destruct (py_bool qs) eqn:Hb; cbn;
    [destruct (py_iter qs) as [e4|items] eqn:Hi; cbn; [discriminate|]|];
    (destruct (question_strings qs) as [l|e|] eqn:H4; cbn; try discriminate;
     destruct (run_summary_agent json_dumps svc raw v1
                 (auto_answer_clarifier_questions l)) as [e5|note] eqn:H5;
       cbn; [discriminate|];
     destruct (run_routing_agent json_dumps svc raw v1) as [e6|g] eqn:H6;
       cbn; [|destruct (print_routing g) as [e7|[]] eqn:H7; cbn];
     (destruct (run_eval_agent svc note) as [e8|v6] eqn:H8; cbn;
        [discriminate|];
      destruct (py_get v1 (str "symptoms") (JList [])) as [e9|sy] eqn:H9;
        cbn; [discriminate|];
      destruct (py_len sy) as [e10|n1] eqn:H10; cbn; [discriminate|];
      destruct (py_len qs) as [e11|n2] eqn:H11; cbn; [discriminate|];
      match goal with
      | |- context [py_get ?g (str "recommended_doctors") ?d] =>
          destruct (py_get g (str "recommended_doctors") d)
            as [e12|doctors] eqn:H12; cbn; [discriminate|]
      end;
      destruct (py_len doctors) as [e13|n3] eqn:H13; cbn; [discriminate|];
      destruct (py_get v6 (str "score") (JStr (str "N/A")))
        as [e14|score] eqn:H14; cbn; [discriminate|];
      intros E; injection E as <- <-; cbn;
      rewrite ?H1, ?H2, ?H3, ?H4, ?H5, ?H6, ?H7, ?H8;
      repeat split; eauto using py_get_ok)).
Qed.

End DemoReturns.

Section UserReturns.
Variable json_dumps : json -> pystr.
Variable svc : ModelService.
Variable raw : pystr.
Variable user_answers : dict pystr.

Lemma user_ok_inv s st :
  run_niracare_with_user_answers json_dumps svc raw user_answers = (Ok s, st) ->
  user_chain json_dumps svc raw user_answers s
  /\ st = {| session := s; calls := user_calls raw s |}.
Proof.
  unfold user_chain, user_calls. unfold_run. cbn.
  destruct (run_intake_agent svc raw) as [e1|v1] eqn:H1; cbn;
    [discriminate|].
  destruct (run_clarifier_agent json_dumps svc raw v1) as [e2|out] eqn:H2;
    cbn; [discriminate|].
  destruct (py_get out (str "questions") (JList [])) as [e3|qs] eqn:H3;
    cbn; [discriminate|].
  destruct (run_summary_agent json_dumps svc raw v1 user_answers)
    as [e5|note] eqn:H5; cbn; [discriminate|].
  destruct (run_eval_agent svc note) as [e8|v6] eqn:H8; cbn; [discriminate|].
  intros E; injection E as <- <-; cbn.
  rewrite ?H1, ?H2, ?H3, ?H5, ?H8. repeat split; eauto.
Qed.

Lemma user_ok_intro s :
  user_chain json_dumps svc raw user_answers s ->
  run_niracare_with_user_answers json_dumps svc raw user_answers
  = (Ok s, {| session := s; calls := user_calls raw s |}).
Proof.
  destruct s as [raw' v1 qs answers note g v6].
  unfold user_chain, user_calls. cbn.
  intros (-> & H1 & (out & H2 & H3) & -> & H5 & -> & H8).
  unfold_run. cbn. rewrite H1. cbn. rewrite H2. cbn. rewrite H3. cbn.
  rewrite H5. cbn. rewrite H8. reflexivity.
Qed.
End UserReturns.

Lemma run_result {A B} (p : A * B) a : fst p = a -> p = (a, snd p).
Proof. destruct p. simpl. now intros ->. Qed.



(** [run_niracare_with_user_answers] returns a session exactly when that
    session is the chain of the results of the four agents it calls, with
    the caller's answers and an empty routing field; nothing is checked
    about the shape of the results beyond the clarifier's being an
    object. *)
Theorem user_run_returns_the_chain
    (json_dumps : json -> pystr) (svc : ModelService) (raw : pystr)
    (user_answers : dict pystr) (s : NiraSession) :
  fst (run_niracare_with_user_answers json_dumps svc raw user_answers) = Ok s
  <-> user_chain json_dumps svc raw user_answers s.
Proof.
  split.
  - intros H. apply run_result in H.
    now destruct (user_ok_inv _ _ _ _ _ _ H) as (Hc & _).
  - intros Hc. now rewrite (user_ok_intro _ _ _ _ _ Hc).
Qed.

Lemma user_run_returns_the_chain_witness :
  user_chain no_dumps service_all_fine headache
    [(str "Since when?", str "Two weeks")]
    (with_routing_guidance (JDict [])
       (with_clarifier_answers [(str "Since when?", str "Two weeks")]
          session_all_fine)).
Proof.
  apply (user_run_returns_the_chain no_dumps service_all_fine headache).
  vm_compute. reflexivity.
Defined.

(** A session that [run_niracare_demo] returns holds objects in its
    intake, routing and eval fields, and questions, symptoms and
    recommended doctors that have a length. *)
Theorem demo_session_is_well_shaped
    (json_dumps : json -> pystr) (svc : ModelService) (raw : pystr)
    (s : NiraSession) :
  fst (run_niracare_demo json_dumps svc raw) = Ok s ->
  is_object (intake_json s) /\ is_object (routing_guidance s)
  /\ is_object (eval_result s)
  /\ summary_readable s.
Proof.
  intros H. apply run_result in H.
  destruct (demo_ok_inv _ _ _ _ _ H) as (_ & Hr & _).
  pose proof Hr as ((sy & n1 & H9 & _) & _ & (doctors & n3 & H12 & _) & H6).
  split; [eapply py_get_ok; eassumption|].
  split; [eapply py_get_ok; eassumption|]. now split.
Qed.

Lemma demo_session_is_well_shaped_witness :
  is_object (intake_json session_all_fine)
  /\ is_object (routing_guidance session_all_fine)
  /\ is_object (eval_result session_all_fine)
  /\ summary_readable session_all_fine.
Proof.
  apply (demo_session_is_well_shaped no_dumps service_all_fine headache).
  vm_compute. reflexivity.
Defined.

(** The two entry points agree: when [run_niracare_demo] returns a
    session and the models answer the same prompts in the same way,
    [run_niracare_with_user_answers], given the answers of that session,
    returns the same session but for the routing field, which it leaves
    empty. *)
Theorem entry_points_agree
    (json_dumps : json -> pystr) (svc : ModelService) (raw : pystr)
    (s : NiraSession) :
  fst (run_niracare_demo json_dumps svc raw) = Ok s ->
  fst (run_niracare_with_user_answers json_dumps svc raw (clarifier_answers s))
  = Ok (with_routing_guidance (JDict []) s).
Proof.
  intros H. apply run_result in H.
  destruct (demo_ok_inv _ _ _ _ _ H)
    as ((H0 & H1 & H2 & (l & H4 & Ha) & H5 & Hg & H8) & _ & _).
  rewrite (user_ok_intro json_dumps svc raw (clarifier_answers s)
             (with_routing_guidance (JDict []) s)); [reflexivity|].
  unfold user_chain. cbn. repeat split; assumption.
Qed.

Lemma entry_points_agree_witness :
  fst (run_niracare_with_user_answers no_dumps service_all_fine headache
         (clarifier_answers session_all_fine))
  = Ok (with_routing_guidance (JDict []) session_all_fine).
Proof.
  apply (entry_points_agree no_dumps service_all_fine headache).
  vm_compute. reflexivity.
Defined.

(** ** The order of the calls *)

(** Whatever the models answer, [run_niracare_demo] calls each agent at
    most once and in the order Intake, Clarifier, Summary, Routing, Eval,
    each with the fields the session holds at the end; it stops after the
    first, second or third call or makes all five: the RoutingAgent is
    never the last one called. *)
Theorem demo_calls_in_order
    (json_dumps : json -> pystr) (svc : ModelService) (raw : pystr) :
  let st := snd (run_niracare_demo json_dumps svc raw) in
  let s := session st in
  calls st = [CallIntake raw]
  \/ calls st = [CallIntake raw; CallClarifier raw (intake_json s)]
  \/ calls st = [CallIntake raw; CallClarifier raw (intake_json s);
                 CallSummary raw (intake_json s) (clarifier_answers s)]
  \/ calls st = demo_calls raw s.
Proof.
  unfold demo_calls. unfold_run. cbn. repeat case_step; cbn; tauto.
Qed.

(** Whatever the models answer, [run_niracare_with_user_answers] calls
    the Intake, Clarifier, Summary and Eval agents at most once each and
    in that order, each with the fields the session holds at the end. *)
Theorem user_run_calls_in_order
    (json_dumps : json -> pystr) (svc : ModelService) (raw : pystr)
    (user_answers : dict pystr) :
  let st := snd (run_niracare_with_user_answers json_dumps svc raw
                   user_answers) in
  let s := session st in
  calls st = [CallIntake raw]
  \/ calls st = [CallIntake raw; CallClarifier raw (intake_json s)]
  \/ calls st = [CallIntake raw; CallClarifier raw (intake_json s);
                 CallSummary raw (intake_json s) (clarifier_answers s)]
  \/ calls st = user_calls raw s.
Proof.
  unfold user_calls. unfold_run. cbn. repeat case_step; cbn; tauto.
Qed.


(** ** Replies of another shape *)

Lemma py_get_not_object v k default :
  ~ is_object v -> py_get v k default = inl AttributeError.
Proof.
  destruct v; try reflexivity. intros H. exfalso. apply H. eexists.
  reflexivity.
Qed.

(** When the clarifier's reply decodes to a value that is not an object
    (a bare list of questions, say), both entry points raise
    [AttributeError] after the second call: the intake result is stored,
    no question is, and the SummaryAgent is not called. *)
Theorem clarifier_reply_must_be_an_object
    (json_dumps : json -> pystr) (svc : ModelService) (raw : pystr)
    (user_answers : dict pystr) (v1 out : json) :
  run_intake_agent svc raw = inr v1 ->
  run_clarifier_agent json_dumps svc raw v1 = inr out ->
  ~ is_object out ->
  let stopped :=
    (Raise AttributeError,
     {| session := Build_NiraSession raw v1 (JList []) [] [] (JDict [])
                     (JDict []);
        calls := [CallIntake raw; CallClarifier raw v1] |}) in
  run_niracare_demo json_dumps svc raw = stopped
  /\ run_niracare_with_user_answers json_dumps svc raw user_answers = stopped.
Proof.
  intros H1 H2 Ho.
  pose proof (py_get_not_object out (str "questions") (JList []) Ho) as H3.
  split; unfold_run; cbn; rewrite H1; cbn; rewrite H2; cbn; rewrite H3;
    reflexivity.
Qed.

Lemma clarifier_reply_must_be_an_object_witness :
  fst (run_niracare_demo no_dumps service_list_of_questions headache)
  = Raise AttributeError
  /\ fst (run_niracare_with_user_answers no_dumps service_list_of_questions
            headache [])
     = Raise AttributeError.
Proof.
  destruct (clarifier_reply_must_be_an_object no_dumps
              service_list_of_questions headache []
              (JDict [(str "symptoms", JList [])])
              (JList [JStr (str "Since when?")])) as [Hd Hu].
  - vm_compute. reflexivity.
  - vm_compute. reflexivity.
  - intros [d Hd]. discriminate Hd.
  - rewrite Hd, Hu. split; reflexivity.
Defined.





(** ** The order of the auto answers *)

Lemma dict_set_present {V} k (v : V) d :
  dict_get k d = Some v -> dict_set k v d = d.
Proof.
  induction d as [|[k' v'] d IH]; simpl; [discriminate|].
  destruct (pystr_eqb_spec k k') as [->|Hk].
  - intros H. now injection H as ->.
  - intros H. now rewrite IH.
Qed.

Lemma dict_set_absent {V} k (v : V) d :
  ~ In k (keys d) -> dict_set k v d = d ++ [(k, v)].
Proof.
  unfold keys. induction d as [|[k' v'] d IH]; simpl; [reflexivity|].
  intros H. destruct (pystr_eqb_spec k k') as [->|Hk]; [tauto|].
  rewrite IH by tauto. reflexivity.
Qed.

Lemma auto_answers_snoc qs q :
  auto_answer_clarifier_questions (qs ++ [q])
  = dict_set q (demo_answer q) (auto_answer_clarifier_questions qs).
Proof.
  unfold auto_answer_clarifier_questions. now rewrite fold_left_app.
Qed.

Lemma auto_answers_app a b :
  auto_answer_clarifier_questions (a ++ b)
  = fold_left
      (fun answers question =>
         dict_set question (demo_answer question) answers)
      b (auto_answer_clarifier_questions a).
Proof.
  unfold auto_answer_clarifier_questions. now rewrite fold_left_app.
Qed.

(** The auto answers come in the order of the questions: for questions
    that are all different the mapping is the list of the questions, each
    with its answer; a question that has occurred before adds nothing and
    moves nothing. *)
Theorem auto_answers_keep_the_order :
  (forall questions,
      NoDup questions ->
      auto_answer_clarifier_questions questions
      = map (fun q => (q, str "Demo answer for: " ++ q)) questions)
  /\ (forall before q after,
         In q before ->
         auto_answer_clarifier_questions (before ++ q :: after)
         = auto_answer_clarifier_questions (before ++ after)).
Proof.
  split.
  - intros questions. induction questions as [|q qs IH] using rev_ind.
    + reflexivity.
    + intros Hnd. apply NoDup_remove in Hnd as [Hnd Hq].
      rewrite app_nil_r in Hnd, Hq.
      rewrite auto_answers_snoc, map_app, IH by exact Hnd.
      apply dict_set_absent. unfold keys. rewrite map_map. simpl.
      now rewrite map_id.
  - intros before q after Hq.
    rewrite !auto_answers_app. simpl. f_equal.
    apply dict_set_present.
    now apply (proj1 (auto_answers_spec before q)).
Qed.

Lemma auto_answers_keep_the_order_witness :
  auto_answer_clarifier_questions [str "Since when?"; str "How often?"]
  = [(str "Since when?", str "Demo answer for: " ++ str "Since when?");
     (str "How often?", str "Demo answer for: " ++ str "How often?")].
Proof.
  destruct auto_answers_keep_the_order as [H _].
  apply (H [str "Since when?"; str "How often?"]).
  repeat constructor; simpl; intuition discriminate.
Defined.

(** ** The interactive script *)

Lemma grows_ret {A} (a : A) : grows (sh_ret a).
Proof. intros w. split; [reflexivity | exists []; now rewrite app_nil_r]. Qed.

Lemma grows_bind {A B} (m : Sh A) (k : A -> Sh B) :
  grows m -> (forall a, grows (k a)) -> grows (sh_bind m k).
Proof.
  intros Hm Hk w. unfold sh_bind. destruct (Hm w) as [Hl [more Hc]].
  destruct (m w) as [[a|e|code| |] w']; simpl in *;
    try (split; [exact Hl | eauto]).
  destruct (Hk a w') as [Hl' [more' Hc']]. split; [lia|].
  exists (more ++ more'). now rewrite Hc', Hc, app_assoc.
Qed.

Lemma grows_try {A} (m : Sh A) (h : shell_exn -> Sh A) :
  grows m -> (forall e, grows (h e)) -> grows (sh_try m h).
Proof.
  intros Hm Hh w. unfold sh_try. destruct (Hm w) as [Hl [more Hc]].
  destruct (m w) as [[a|e|code| |] w']; simpl in *;
    try (split; [exact Hl | eauto]).
  destruct (Hh e w') as [Hl' [more' Hc']]. split; [lia|].
  exists (more ++ more'). now rewrite Hc', Hc, app_assoc.
Qed.

Lemma grows_input : grows input.
Proof.
  intros w. unfold input. destruct (stdin w) eqn:E; simpl.
  - rewrite E. split; [reflexivity | exists []; now rewrite app_nil_r].
  - split; [lia | exists []; now rewrite app_nil_r].
Qed.

Lemma grows_expr {A} (r : exn + A) : grows (sh_expr r).
Proof.
  intros w. unfold sh_expr.
  destruct r; simpl; (split; [reflexivity | exists []; now rewrite app_nil_r]).
Qed.

Lemma grows_call {A} c (r : exn + A) : grows (sh_call c r).
Proof.
  intros w. unfold sh_call, sh_expr.
  destruct r; simpl; (split; [reflexivity | eauto]).
Qed.

Lemma grows_as_key q : grows (as_key q).
Proof.
  intros w. unfold as_key.
  destruct (unhashable q); [|destruct q]; simpl;
    (split; [reflexivity | exists []; now rewrite app_nil_r]).
Qed.

Lemma grows_if {A} (b : bool) (m1 m2 : Sh A) :
  grows m1 -> grows m2 -> grows (if b then m1 else m2).
Proof. now destruct b. Qed.

Lemma grows_ask items : forall acc, grows (ask_questions items acc).
Proof.
  induction items as [|q items IH]; intros acc; simpl.
  - apply grows_ret.
  - apply grows_bind; [apply grows_input|]. intros line.
    apply grows_bind; [apply grows_as_key|]. intros key. apply IH.
Qed.

Lemma stays_ret {A} (a : A) : stays (sh_ret a).
Proof. intros w. split; [intros code|]; discriminate. Qed.

Lemma stays_bind {A B} (m : Sh A) (k : A -> Sh B) :
  stays m -> (forall a, stays (k a)) -> stays (sh_bind m k).
Proof.
  intros Hm Hk w. unfold sh_bind. destruct (Hm w) as [H1 H2].
  destruct (m w) as [[a|e|code| |] w']; simpl in *;
    try (split; [intros c|]; discriminate).
  - apply Hk.
  - now destruct (H1 code).
  - now destruct H2.
Qed.

Lemma stays_try {A} (m : Sh A) (h : shell_exn -> Sh A) :
  stays m -> (forall e, stays (h e)) -> stays (sh_try m h).
Proof.
  intros Hm Hh w. unfold sh_try. destruct (Hm w) as [H1 H2].
  destruct (m w) as [[a|e|code| |] w']; simpl in *;
    try (split; [intros c|]; discriminate).
  - apply Hh.
  - now destruct (H1 code).
  - now destruct H2.
Qed.

Lemma stays_input : stays input.
Proof.
  intros w. unfold input.
  destruct (stdin w); simpl; (split; [intros c|]; discriminate).
Qed.

Lemma stays_expr {A} (r : exn + A) : stays (sh_expr r).
Proof.
  intros w. unfold sh_expr.
  destruct r; simpl; (split; [intros c|]; discriminate).
Qed.

Lemma stays_call {A} c (r : exn + A) : stays (sh_call c r).
Proof. intros w. unfold sh_call. apply stays_expr. Qed.

Lemma stays_as_key q : stays (as_key q).
Proof.
  intros w. unfold as_key.
  destruct (unhashable q); [|destruct q]; simpl;
    (split; [intros c|]; discriminate).
Qed.

Lemma stays_if {A} (b : bool) (m1 m2 : Sh A) :
  stays m1 -> stays m2 -> stays (if b then m1 else m2).
Proof. now destruct b. Qed.

Lemma stays_ask items : forall acc, stays (ask_questions items acc).
Proof.
  induction items as [|q items IH]; intros acc; simpl.
  - apply stays_ret.
  - apply stays_bind; [apply stays_input|]. intros line.
    apply stays_bind; [apply stays_as_key|]. intros key. apply IH.
Qed.

Ltac shell_step :=
  first
    [ apply grows_ret | apply grows_input | apply grows_expr
    | apply grows_call | apply grows_as_key | apply grows_ask
    | apply grows_bind | apply grows_if | apply grows_try
    | apply stays_ret | apply stays_input | apply stays_expr
    | apply stays_call | apply stays_as_key | apply stays_ask
    | apply stays_bind | apply stays_if | apply stays_try
    | match goal with
      | |- forall _, grows _ => intro
      | |- forall _, stays _ => intro
      end ].

Section ShellFacts.
Variable json_dumps : json -> pystr.
Variable svc : ModelService.

Lemma grows_round text : grows (round json_dumps svc text).
Proof. unfold round. repeat shell_step. Qed.

Lemma stays_round text : stays (round json_dumps svc text).
Proof. unfold round. repeat shell_step. Qed.

Lemma grows_ask_again : grows ask_again.
Proof. unfold ask_again. repeat shell_step. Qed.

Lemma stays_ask_again : stays ask_again.
Proof. unfold ask_again. repeat shell_step. Qed.

Lemma grows_attempt text : grows (attempt json_dumps svc text).
Proof.
  unfold attempt. apply grows_try; [apply grows_bind|];
    intros; first [apply grows_round | apply grows_ask_again].
Qed.

Lemma stays_attempt text : stays (attempt json_dumps svc text).
Proof.
  unfold attempt. apply stays_try; [apply stays_bind|];
    intros; first [apply stays_round | apply stays_ask_again].
Qed.

(** A round that fails is caught: the [try] statement ends with the
    choice typed, or with the [EOFError] of [input()]. *)
Lemma attempt_endings text w :
  (exists again, fst (attempt json_dumps svc text w) = Returns again)
  \/ fst (attempt json_dumps svc text w) = Throws EOFError
  \/ fst (attempt json_dumps svc text w) = NotModelled.
Proof.
  destruct (stays_attempt text w) as [H1 H2].
  unfold attempt, sh_try in *.
  destruct (sh_bind _ _ w) as [[a|e|code| |] w'] eqn:E; simpl in *; eauto.
  - unfold ask_again, sh_bind, input, sh_ret.
    destruct (stdin w'); simpl; eauto.
  - now destruct (H1 code).
  - now destruct H2.
Qed.

Lemma read_lines_spec pending : forall lines,
  match read_lines pending lines with
  | (Returns _, rest) => length rest < length pending
  | (Exits code, rest) => code = 0%Z /\ length rest < length pending
  | (Throws e, rest) => e = EOFError /\ rest = []
  | _ => False
  end.
Proof.
  induction pending as [|line rest IH]; intros lines; simpl; [now split|].
  destruct (lower_is (strip line) (str "quit")); [simpl; split; [reflexivity | lia]|].
  destruct (strip line); [simpl; lia|].
  specialize (IH (lines ++ [line])).
  destruct (read_lines rest (lines ++ [line])) as [[a|e|code| |] r];
    simpl in *; try tauto; try lia.
Qed.

Lemma main_loop_step fuel w :
  main_loop json_dumps svc (S fuel) w
  = match read_lines (stdin w) [] with
    | (Returns [], rest) =>
        main_loop json_dumps svc fuel
          {| stdin := rest; agent_calls := agent_calls w |}
    | (Returns lines, rest) =>
        match attempt json_dumps svc (join nl lines)
                {| stdin := rest; agent_calls := agent_calls w |} with
        | (Returns true, w') => main_loop json_dumps svc fuel w'
        | (Returns false, w') => (Returns tt, w')
        | (Throws e, w') => (Throws e, w')
        | (Exits code, w') => (Exits code, w')
        | (NotModelled, w') => (NotModelled, w')
        | (OutOfFuel, w') => (OutOfFuel, w')
        end
    | (Throws e, rest) =>
        (Throws e, {| stdin := rest; agent_calls := agent_calls w |})
    | (Exits code, rest) =>
        (Exits code, {| stdin := rest; agent_calls := agent_calls w |})
    | (NotModelled, rest) =>
        (NotModelled, {| stdin := rest; agent_calls := agent_calls w |})
    | (OutOfFuel, rest) =>
        (OutOfFuel, {| stdin := rest; agent_calls := agent_calls w |})
    end.
Proof.
  cbn [main_loop]. unfold sh_bind, read_symptoms, sh_ret.
  destruct (read_lines (stdin w) []) as [[[|l lines]|e|code| |] rest];
    try reflexivity.
  destruct (attempt _ _ _ _) as [[[|]|e|code| |] w']; reflexivity.
Qed.

Lemma main_loop_endings fuel : forall w,
  length (stdin w) < fuel ->
  let r := fst (main_loop json_dumps svc fuel w) in
  r = Returns tt \/ r = Exits 0 \/ r = Throws EOFError \/ r = NotModelled.
Proof.
  induction fuel as [|fuel IH]; intros w Hf; [lia|].
  rewrite main_loop_step.
  pose proof (read_lines_spec (stdin w) []) as Hr.
  destruct (read_lines (stdin w) []) as [[lines|e|code| |] rest];
    cbn [fst snd] in *; try tauto.
  - destruct lines as [|l lines].
    + apply IH. simpl. lia.
    + set (w1 := {| stdin := rest; agent_calls := agent_calls w |}).
      destruct (grows_attempt (join nl (l :: lines)) w1) as [Hl _].
      destruct (attempt_endings (join nl (l :: lines)) w1) as [[b H]|[H|H]];
        destruct (attempt json_dumps svc (join nl (l :: lines)) w1)
          as [r w2]; simpl in H, Hl; subst r; cbn; auto.
      destruct b; [|cbn; auto]. apply IH. simpl in *. lia.
  - destruct Hr as [-> _]. cbn. auto.
  - destruct Hr as [-> _]. cbn. auto.
Qed.
End ShellFacts.

(** The script always comes to an end on a console that holds finitely
    many lines, and it ends in one of three ways: by [exit(0)] at the word
    [quit], by leaving its loop when another round is declined, or with
    the [EOFError] of [input()] when the lines run out.  No failure of an
    agent ends it. *)
Theorem interactive_shell_endings
    (json_dumps : json -> pystr) (svc : ModelService) (lines : list pystr) :
  let r := fst (run_interactive json_dumps svc lines) in
  r = Returns tt \/ r = Exits 0 \/ r = Throws EOFError \/ r = NotModelled.
Proof. apply main_loop_endings. simpl. lia. Qed.

Lemma read_lines_quit typed q rest : forall lines,
  Forall symptom_line typed ->
  lower_is (strip q) (str "quit") = true ->
  read_lines (typed ++ q :: rest) lines = (Exits 0, rest).
Proof.
  induction typed as [|l typed IH]; intros lines Ht Hq; simpl.
  - now rewrite Hq.
  - inversion Ht as [|? ? [H1 H2] Ht']; subst. rewrite H1.
    destruct (strip l); [congruence|]. now apply IH.
Qed.

Lemma read_lines_blank typed b rest : forall lines,
  Forall symptom_line typed ->
  strip b = [] ->
  read_lines (typed ++ b :: rest) lines = (Returns (lines ++ typed), rest).
Proof.
  induction typed as [|l typed IH]; intros lines Ht Hb; simpl.
  - rewrite Hb. cbn. now rewrite app_nil_r.
  - inversion Ht as [|? ? [H1 H2] Ht']; subst. rewrite H1.
    destruct (strip l) eqn:E; [congruence|].
    rewrite IH by assumption. now rewrite <- app_assoc.
Qed.

(** The word [quit], in any case and with whitespace around it, typed on
    a line of its own while the symptoms are entered, ends the script
    with [exit(0)]: the lines typed before it are dropped, no agent is
    called, and the lines after it are not read. *)
Theorem quit_exits_at_once
    (json_dumps : json -> pystr) (svc : ModelService)
    (typed : list pystr) (q : pystr) (rest : list pystr) :
  Forall symptom_line typed ->
  lower_is (strip q) (str "quit") = true ->
  run_interactive json_dumps svc (typed ++ q :: rest)
  = (Exits 0, {| stdin := rest; agent_calls := [] |}).
Proof.
  intros Ht Hq. unfold run_interactive. rewrite main_loop_step.
  cbn [stdin agent_calls]. now rewrite read_lines_quit.
Qed.

Lemma quit_exits_at_once_witness :
  run_interactive no_dumps service_all_fine
    ([str "I have had headaches"] ++ str "  Quit " :: [str "y"])
  = (Exits 0, {| stdin := [str "y"]; agent_calls := [] |}).
Proof.
  apply quit_exits_at_once.
  - repeat constructor; vm_compute; discriminate.
  - vm_compute. reflexivity.
Defined.

Section ShellCalls.
Variable json_dumps : json -> pystr.
Variable svc : ModelService.

Lemma grows_read_symptoms : grows read_symptoms.
Proof.
  intros w. unfold read_symptoms.
  pose proof (read_lines_spec (stdin w) []) as H.
  destruct (read_lines (stdin w) []) as [[a|e|code| |] rest]; simpl in *;
    try tauto;
    (split; [| exists []; now rewrite app_nil_r]); try lia.
  destruct H as [_ ->]. simpl. lia.
Qed.

Lemma grows_main_loop fuel : grows (main_loop json_dumps svc fuel).
Proof.
  induction fuel as [|fuel IH]; cbn [main_loop].
  - intros w. simpl. split; [lia | exists []; now rewrite app_nil_r].
  - apply grows_bind; [apply grows_read_symptoms|]. intros [|l lines].
    + exact IH.
    + apply grows_bind; [apply grows_attempt|]. intros [|];
        [exact IH | apply grows_ret].
Qed.

Lemma calls_after_first {A B} c (r : exn + A) (k : A -> Sh B) w :
  (forall a, grows (k a)) ->
  exists more,
    agent_calls (snd (sh_bind (sh_call c r) k w)) = agent_calls w ++ c :: more.
Proof.
  intros Hk. unfold sh_bind, sh_call, sh_expr.
  destruct r as [e|a]; simpl.
  - now exists [].
  - destruct (Hk a {| stdin := stdin w; agent_calls := agent_calls w ++ [c] |})
      as [_ [more Hm]].
    exists more. rewrite Hm. simpl. now rewrite <- app_assoc.
Qed.

Lemma round_begins text w :
  exists more,
    agent_calls (snd (round json_dumps svc text w))
    = agent_calls w ++ CallIntake text :: more.
Proof.
  unfold round. apply calls_after_first. intros v1. repeat shell_step.
Qed.

Lemma attempt_begins text w :
  exists more,
    agent_calls (snd (attempt json_dumps svc text w))
    = agent_calls w ++ CallIntake text :: more.
Proof.
  unfold attempt, sh_try, sh_bind at 1.
  destruct (round_begins text w) as [more Hm].
  destruct (round json_dumps svc text w) as [[[]|e|code| |] w1]; simpl in *;
    eauto.
  - destruct (grows_ask_again w1) as [_ [more' Hm']].
    destruct (ask_again w1) as [[b|e|code| |] w2]; simpl in *;
      try (exists (more ++ more'); rewrite Hm', Hm, <- app_assoc; reflexivity).
    destruct (grows_ask_again w2) as [_ [more2 Hm2]].
    exists (more ++ more' ++ more2).
    rewrite Hm2, Hm', Hm, <- !app_assoc. reflexivity.
  - destruct (grows_ask_again w1) as [_ [more' Hm']].
    exists (more ++ more'). rewrite Hm', Hm, <- app_assoc. reflexivity.
Qed.
End ShellCalls.

(** The text sent to the IntakeAgent is what was typed: the lines up to
    the first blank line, joined by line ends, with nothing trimmed; it is
    the first call the script makes. *)
Theorem symptom_text_is_the_lines_typed
    (json_dumps : json -> pystr) (svc : ModelService)
    (first : pystr) (typed : list pystr) (blank_line : pystr)
    (rest : list pystr) :
  Forall symptom_line (first :: typed) ->
  strip blank_line = [] ->
  exists more,
    agent_calls
      (snd (run_interactive json_dumps svc
              ((first :: typed) ++ blank_line :: rest)))
    = CallIntake (join nl (first :: typed)) :: more.
Proof.
  intros Ht Hb. unfold run_interactive. rewrite main_loop_step.
  cbn [stdin agent_calls]. rewrite read_lines_blank by assumption.
  cbn [app].
  set (w1 := {| stdin := rest; agent_calls := [] |}).
  destruct (attempt_begins json_dumps svc (join nl (first :: typed)) w1)
    as [more Hm].
  destruct (attempt json_dumps svc (join nl (first :: typed)) w1)
    as [[[|]|e|code| |] w2]; simpl in Hm; cbn [snd]; eauto.
  match goal with
  | |- context [main_loop _ _ ?n w2] =>
      destruct (grows_main_loop json_dumps svc n w2) as [_ [more' Hm']]
  end.
  exists (more ++ more'). rewrite Hm', Hm. reflexivity.
Qed.

Lemma symptom_text_is_the_lines_typed_witness :
  exists more,
    agent_calls
      (snd (run_interactive no_dumps service_all_fine
              ((str "I have had headaches" :: [str " for two weeks."])
               ++ str " " :: [str "since May"; str "n"])))
    = CallIntake
        (str "I have had headaches" ++ nl ++ str " for two weeks.") :: more.
Proof.
  apply (symptom_text_is_the_lines_typed no_dumps service_all_fine).
  - repeat constructor; vm_compute; discriminate.
  - reflexivity.
Defined.

(** *** The answers typed *)









(** *** The calls of a round *)

Lemma ask_questions_calls items : forall acc w,
  agent_calls (snd (ask_questions items acc w)) = agent_calls w.
Proof.
  induction items as [|q items IH]; intros acc w; simpl; [reflexivity|].
  unfold sh_bind, input, as_key.
  destruct (stdin w); simpl; [reflexivity|].
  destruct (unhashable q); simpl; [reflexivity|].
  destruct q; simpl; try reflexivity. now rewrite IH.
Qed.

Ltac ask_calls :=
  repeat match goal with
         | H : ask_questions ?items ?acc ?w = (_, ?w') |- _ =>
             let E := fresh "E" in
             pose proof (ask_questions_calls items acc w) as E;
             rewrite H in E; cbn [snd agent_calls] in E;
             clear H
         end.

Section RoundCalls.
Variable json_dumps : json -> pystr.
Variable svc : ModelService.

Lemma round_calls text w :
  let log := agent_calls (snd (round json_dumps svc text w)) in
  log = agent_calls w ++ [CallIntake text]
  \/ (exists v1,
         log = agent_calls w ++ [CallIntake text; CallClarifier text v1])
  \/ (exists v1 answers,
         log = agent_calls w
               ++ [CallIntake text; CallClarifier text v1;
                   CallSummary text v1 answers])
  \/ (exists v1 answers,
         log = agent_calls w
               ++ [CallIntake text; CallClarifier text v1;
                   CallSummary text v1 answers; CallRouting text v1]
         /\ (fst (round json_dumps svc text w) = Returns tt -> False))
  \/ (exists v1 answers note g,
         log = agent_calls w
               ++ [CallIntake text; CallClarifier text v1;
                   CallSummary text v1 answers; CallRouting text v1;
                   CallEval note]
         /\ run_summary_agent json_dumps svc text v1 answers = inr note
         /\ run_routing_agent json_dumps svc text v1 = inr g
         /\ print_routing g = inr tt).
Proof.
  unfold round, sh_bind, sh_call, sh_expr, sh_ret. cbn.
  repeat case_step; ask_calls; cbn [agent_calls snd fst];
    rewrite ?E; rewrite <- ?app_assoc; cbn [app].
  all: try (left; reflexivity).
  all: try (right; left; eexists; reflexivity).
  all: try (right; right; left; do 2 eexists; reflexivity).
  all: try (right; right; right; left; do 2 eexists;
            split; [reflexivity | discriminate]).
  all: right; right; right; right; do 4 eexists;
    (split; [reflexivity | split; [eassumption | split; [eassumption|]]]).
  all: unfold print_routing, and_then;
    repeat match goal with
           | H : ?x = inr _ |- context [?x] => rewrite H
           end;
    repeat match goal with u : unit |- _ => destruct u end; reflexivity.
Qed.

Lemma ask_again_calls w :
  agent_calls (snd (ask_again w)) = agent_calls w
  /\ (fst (ask_again w) = Throws EOFError -> snd (ask_again w) = w).
Proof.
  unfold ask_again, sh_bind, input, sh_ret.
  destruct (stdin w); cbn; split; try reflexivity; discriminate.
Qed.

Lemma attempt_calls text w :
  agent_calls (snd (attempt json_dumps svc text w))
  = agent_calls (snd (round json_dumps svc text w)).
Proof.
  unfold attempt, sh_try. unfold sh_bind at 1.
  destruct (round json_dumps svc text w) as [[[]|e|code| |] w1]; cbn [snd];
    try reflexivity; try apply ask_again_calls.
  destruct (ask_again_calls w1) as [H1 H2].
  destruct (ask_again w1) as [[b|e|code| |] w2]; cbn [fst snd] in *;
    try assumption.
  destruct (ask_again_calls w2) as [H3 _]. now rewrite H3.
Qed.
End RoundCalls.

(** In a round of the script the agents are called at most once each
    and in the order Intake, Clarifier, Summary, Routing, Eval, all on the
    text typed; the round can stop after any of them.  The EvalAgent is
    called only when the RoutingAgent has returned and its guidance could
    be printed, and it is given the note the SummaryAgent returned. *)
Theorem round_calls_in_order
    (json_dumps : json -> pystr) (svc : ModelService)
    (text : pystr) (w : world) :
  exists v1 answers note k,
    1 <= k <= 5
    /\ agent_calls (snd (attempt json_dumps svc text w))
       = agent_calls w
         ++ firstn k [CallIntake text; CallClarifier text v1;
                      CallSummary text v1 answers; CallRouting text v1;
                      CallEval note]
    /\ (k = 5 ->
        run_summary_agent json_dumps svc text v1 answers = inr note
        /\ exists g,
            run_routing_agent json_dumps svc text v1 = inr g
            /\ print_routing g = inr tt).
Proof.
  rewrite attempt_calls.
  destruct (round_calls json_dumps svc text w)
    as [H | [(v1 & H) | [(v1 & a & H) | [(v1 & a & H & _)
       | (v1 & a & note & g & H & Hs & Hr & Hp)]]]]; rewrite H.
  - exists JNull, [], [], 1. repeat split; try lia.
  - exists v1, [], [], 2. repeat split; try lia.
  - exists v1, a, [], 3. repeat split; try lia.
  - exists v1, a, [], 4. repeat split; try lia.
  - exists v1, a, note, 5. repeat split; try lia; eauto.
Qed.

Lemma round_calls_in_order_witness :
  exists v1 answers note k,
    1 <= k <= 5
    /\ agent_calls
         (snd (attempt no_dumps service_without_routing headache
                 {| stdin := [str "since May"; str "n"]; agent_calls := [] |}))
       = [] ++ firstn k [CallIntake headache; CallClarifier headache v1;
                         CallSummary headache v1 answers;
                         CallRouting headache v1; CallEval note]
    /\ (k = 5 ->
        run_summary_agent no_dumps service_without_routing headache v1 answers
        = inr note
        /\ exists g,
            run_routing_agent no_dumps service_without_routing headache v1
            = inr g
            /\ print_routing g = inr tt).
Proof.
  apply (round_calls_in_order no_dumps service_without_routing headache
           {| stdin := [str "since May"; str "n"]; agent_calls := [] |}).
Defined.


Section RoutingDown.
Variable json_dumps : json -> pystr.
Variable svc : ModelService.
Variable e : exn.
Hypothesis routing_down : forall prompt, _routing_model svc prompt = Raises e.

Lemma attempt_without_eval text w :
  existsb is_eval (agent_calls w) = false ->
  existsb is_eval (agent_calls (snd (attempt json_dumps svc text w))) = false.
Proof.
  intros Hw. rewrite attempt_calls.
  destruct (round_calls json_dumps svc text w)
    as [H | [(v1 & H) | [(v1 & a & H) | [(v1 & a & H & _)
       | (v1 & a & note & g & H & Hs & Hr & Hp)]]]];
    try (rewrite H, existsb_app, Hw; reflexivity).
  unfold run_routing_agent in Hr. rewrite routing_down in Hr. discriminate.
Qed.

Lemma main_loop_without_eval fuel : forall w,
  existsb is_eval (agent_calls w) = false ->
  existsb is_eval (agent_calls (snd (main_loop json_dumps svc fuel w))) = false.
Proof.
  induction fuel as [|fuel IH]; intros w Hw; [exact Hw|].
  rewrite main_loop_step.
  destruct (read_lines (stdin w) []) as [[[|l lines]|x|code| |] rest];
    cbn [snd agent_calls]; try exact Hw.
  - now apply IH.
  - set (w1 := {| stdin := rest; agent_calls := agent_calls w |}).
    pose proof (attempt_without_eval (join nl (l :: lines)) w1 Hw) as Ha.
    destruct (attempt json_dumps svc (join nl (l :: lines)) w1)
      as [[[|]|x|code| |] w2]; cbn [snd] in *; try exact Ha.
    now apply IH.
Qed.
End RoutingDown.

(** The script has no handler of its own around the routing step, unlike
    [run_niracare_demo]: while the routing model raises, no round reaches
    the EvalAgent, however many rounds are played. *)
Theorem routing_failure_ends_the_round
    (json_dumps : json -> pystr) (svc : ModelService) (e : exn)
    (lines : list pystr) (note : pystr) :
  (forall prompt, _routing_model svc prompt = Raises e) ->
  ~ In (CallEval note)
      (agent_calls (snd (run_interactive json_dumps svc lines))).
Proof.
  intros Hr Hi.
  pose proof (main_loop_without_eval json_dumps svc e Hr (S (length lines))
                {| stdin := lines; agent_calls := [] |} eq_refl) as H.
  fold (run_interactive json_dumps svc lines) in H.
  assert (Ht : existsb is_eval
                 (agent_calls (snd (run_interactive json_dumps svc lines)))
               = true)
    by (apply existsb_exists; exists (CallEval note); now split).
  congruence.
Qed.

Lemma routing_failure_ends_the_round_witness :
  ~ In (CallEval (str "CHIEF COMPLAINT: headaches"))
      (agent_calls
         (snd (run_interactive no_dumps service_without_routing
                 [str "I have had headaches"; []; str "since May";
                  str "n"]))).
Proof.
  apply (routing_failure_ends_the_round no_dumps service_without_routing
           (ServiceError 503)).
  intros prompt. reflexivity.
Defined.

(** *** The answers reach the SummaryAgent *)





(** ** The dictionary of a session *)



